(** * The AI chat assistant of the portfolio page (script.js)

    A shallow embedding of the chat part of [script.js]: the module-level
    [chatState] object, the part of the page the chat code reads and
    writes, and the handlers [checkAPIHealth], [sendMessage],
    [getAIResponse], [getDemoResponse] and [clearChat].

    JavaScript strings are sequences of UTF-16 code units.  [async]
    functions are resumptions: a handler runs until its next [await],
    leaves the shared state visible to every other handler, and is
    resumed later with whatever the state has become.  The handlers are
    then put together as the event loop of the page, and the scroll
    listener of the navigation bar is modelled beside them. *)

From Stdlib Require Import List ZArith NArith QArith Bool String Ascii Lia.
From Stdlib Require Import DecimalNat DecimalString.
Import ListNotations.

Set Implicit Arguments.
Close Scope Q_scope.
Set Warnings "-register-all".

(** ** Strings *)

Module JsString.

(** A string is its list of UTF-16 code units. *)
Definition t := list N.

(** A literal of the source, for literals written in ASCII only. *)
Definition lit (s : string) : t :=
  map N_of_ascii (list_ascii_of_string s).

Fixpoint eqb (a b : t) : bool :=
  match a, b with
  | [], [] => true
  | x :: a', y :: b' => N.eqb x y && eqb a' b'
  | _, _ => false
  end.

(** WhiteSpace and LineTerminator of ECMAScript, the code units that
    [String.prototype.trim] removes. *)
Definition isWhite (c : N) : bool :=
  existsb (N.eqb c)
    [9; 10; 11; 12; 13; 32; 160; 5760; 8232; 8233; 8239; 8287; 12288; 65279]%N
  || ((8192 <=? c) && (c <=? 8202))%N.

Fixpoint trimStart (s : t) : t :=
  match s with
  | [] => []
  | c :: s' => if isWhite c then trimStart s' else s
  end.

Definition trimEnd (s : t) : t := rev (trimStart (rev s)).

(** [s.trim()] *)
Definition trim (s : t) : t := trimEnd (trimStart s).

Fixpoint startsWith (s p : t) {struct p} : bool :=
  match p, s with
  | [], _ => true
  | _ :: _, [] => false
  | x :: p', y :: s' => N.eqb x y && startsWith s' p'
  end.

(** [s.includes(p)]: [p] occurs in [s] at some position. *)
Fixpoint includes (s p : t) : bool :=
  startsWith s p ||
  match s with
  | [] => false
  | _ :: s' => includes s' p
  end.

Definition isAscii (c : N) : bool := (c <? 128)%N.

(** The case mapping of Basic Latin: A-Z to a-z, the rest unchanged. *)
Definition lowerAscii (c : N) : N :=
  if ((65 <=? c) && (c <=? 90))%N then (c + 32)%N else c.

End JsString.

Definition jsstring : Type := JsString.t.

(** ** Values that come out of [JSON.parse] *)

(** The value in memory.  A number is a double: a finite one is a
    rational, and a literal too large for a double ([1e400]) is parsed
    as an infinity.  The members of an object come in the order in which
    JavaScript enumerates them. *)
Inductive json : Type :=
| JNull
| JBool (b : bool)
| JNum (q : Q)
| JInfinity (negative : bool)
| JStr (s : jsstring)
| JArr (items : list json)
| JObj (fields : list (jsstring * json)).

(** A JavaScript value as far as the chat code meets one: [undefined] or
    a value parsed from JSON. *)
Inductive jsval : Type :=
| Undefined
| Val (v : json).

Inductive exn : Type :=
| NetworkError              (* fetch() rejected *)
| ApiNotResponding          (* new Error('API not responding') *)
| ApiError (status : Z)     (* new Error(`API Error: ${response.status}`) *)
| SyntaxError               (* response.json() rejected *)
| TypeError.                (* property read on null or undefined, ToString of an object *)

(** Own data property of a parsed object.  [JSON.parse] keeps the last
    of several members with one key. *)
Fixpoint ownProperty (key : jsstring) (fields : list (jsstring * json)) : jsval :=
  match fields with
  | [] => Undefined
  | (k, v) :: rest =>
      match ownProperty key rest with
      | Val v' => Val v'
      | Undefined => if JsString.eqb k key then Val v else Undefined
      end
  end.

(** [v.key] for the keys [script.js] reads ([message], [content],
    [model]).  None of them is a property of a string, number, boolean or
    array, or of [Object.prototype]; reading one off [null] or
    [undefined] throws. *)
Definition getProperty (v : jsval) (key : jsstring) : exn + jsval :=
  match v with
  | Undefined => inl TypeError
  | Val JNull => inl TypeError
  | Val (JObj fields) => inr (ownProperty key fields)
  | Val _ => inr Undefined
  end.

(** Whether [`${v}`] evaluates, and with it every conversion of [v] to
    a string.  A parsed object with an own member
    [toString] has no callable [toString] and no [valueOf] that yields a
    primitive, so the conversion throws; an array joins the conversions
    of its elements. *)
Fixpoint toStringOk (v : json) : bool :=
  match v with
  | JArr items =>
      (fix all (l : list json) : bool :=
         match l with
         | [] => true
         | x :: l' => toStringOk x && all l'
         end) items
  | JObj fields =>
      match ownProperty (JsString.lit "toString") fields with
      | Undefined => true
      | Val _ => false
      end
  | _ => true
  end.

Definition templateOk (v : jsval) : bool :=
  match v with
  | Undefined => true
  | Val j => toStringOk j
  end.

(** ** The chat state and the page *)

Inductive Role : Type := user | assistant.

(** An entry of [chatState.messages].  The content of an assistant entry
    is whatever [data.message.content] evaluated to. *)
Record Message : Type := mkMessage {
  role : Role;
  content : jsval
}.

(** [const chatState = { messages: [], isConnected: false, isTyping: false }] *)
Record ChatState : Type := mkChatState {
  messages : list Message;
  isConnected : bool;
  isTyping : bool
}.

Definition initialChatState : ChatState := mkChatState [] false false.

(** The children of the [#chatMessages] container.  The time stamp that
    [addMessage] puts under a bubble is left out. *)
Inductive Node : Type :=
| WelcomeMessage                          (* .welcome-message *)
| DemoModeMessage                         (* .error-message of showDemoModeMessage *)
| Bubble (who : Role) (text : jsval)      (* .message of addMessage *)
| TypingIndicator.                        (* #typingIndicator *)

Inductive StatusClass : Type := online | offline.

Inductive StatusText : Type :=
| ConnectedTo (model : jsval)             (* `Connected to ${data.model}` *)
| ApiOffline.                             (* 'API Offline - Using Demo Mode' *)

(** The elements that the script looks up when it loads ([chatMessages],
    [chatInput], [sendBtn], [statusIndicator], [statusText]) are taken to
    be on the page, and the welcome message to sit inside
    [#chatMessages], where [clearChat] puts it back. *)
Record Page : Type := mkPage {
  chatInput_value : jsstring;             (* chatInput.value *)
  chatMessages : list Node;               (* chatMessages children, in order *)
  sendBtn_disabled : bool;                (* sendBtn.disabled *)
  status : option (StatusClass * StatusText)
                                          (* None: as the markup has it *)
}.

(** What goes out through [fetch]. *)
Inductive Request : Type :=
| GetHealth                               (* GET  baseURL + /health *)
| PostChat (body : json).                 (* POST baseURL + /v1/chat/completions *)

Record World : Type := mkWorld {
  chatState : ChatState;
  page : Page;
  sent : list Request                     (* requests issued so far, oldest first *)
}.

Definition withMessages (f : list Message -> list Message) (w : World) : World :=
  let c := chatState w in
  mkWorld (mkChatState (f (messages c)) (isConnected c) (isTyping c)) (page w) (sent w).

Definition withConnected (b : bool) (w : World) : World :=
  let c := chatState w in
  mkWorld (mkChatState (messages c) b (isTyping c)) (page w) (sent w).

Definition withTyping (b : bool) (w : World) : World :=
  let c := chatState w in
  mkWorld (mkChatState (messages c) (isConnected c) b) (page w) (sent w).

Definition withInput (v : jsstring) (w : World) : World :=
  let p := page w in
  mkWorld (chatState w)
    (mkPage v (chatMessages p) (sendBtn_disabled p) (status p)) (sent w).

Definition withNodes (f : list Node -> list Node) (w : World) : World :=
  let p := page w in
  mkWorld (chatState w)
    (mkPage (chatInput_value p) (f (chatMessages p)) (sendBtn_disabled p) (status p))
    (sent w).

Definition withSendDisabled (b : bool) (w : World) : World :=
  let p := page w in
  mkWorld (chatState w)
    (mkPage (chatInput_value p) (chatMessages p) b (status p)) (sent w).

Definition withStatus (s : StatusClass * StatusText) (w : World) : World :=
  let p := page w in
  mkWorld (chatState w)
    (mkPage (chatInput_value p) (chatMessages p) (sendBtn_disabled p) (Some s))
    (sent w).

Definition withSent (r : Request) (w : World) : World :=
  mkWorld (chatState w) (page w) (sent w ++ [r]).

(** ** The network, as the page sees it *)

(** A response: its status, and what [response.json()] will resolve to
    ([None] when the body is not JSON and the promise rejects). *)
Record Response : Type := mkResponse {
  resp_status : Z;
  resp_json : option json
}.

(** [response.ok] *)
Definition ok (r : Response) : bool :=
  ((200 <=? resp_status r) && (resp_status r <=? 299))%Z.

Inductive FetchOutcome : Type :=
| Rejected                                (* the promise of fetch() rejects *)
| Responded (r : Response).

(** ** Resumptions *)

(** What an [await] waits for, indexed by what it is resumed with. *)
Inductive Pending : Type -> Type :=
| AwaitFetch : Pending FetchOutcome       (* await fetch(...) *)
| AwaitJson : Pending unit                (* await response.json() *)
| AwaitTimer (ms : Z) : Pending unit.     (* await new Promise(r => setTimeout(r, ms)) *)

(** A handler run up to its end, its uncaught exception or its next
    [await].  [Suspend p w k] has left the world [w] behind and goes on as
    [k x w'] once [p] has settled with [x]; [w'] is the world of that
    moment, which other handlers may have changed in between. *)
Inductive Task (A : Type) : Type :=
| Ret (a : A) (w : World)
| Raise (e : exn) (w : World)
| Suspend (X : Type) (p : Pending X) (w : World) (k : X -> World -> Task A).

Arguments Raise {A} e w.
Arguments Suspend {A X} p w k.

Definition Async (A : Type) : Type := World -> Task A.

Fixpoint bindTask {A B : Type} (t : Task A) (f : A -> Async B) : Task B :=
  match t with
  | Ret a w => f a w
  | Raise e w => Raise e w
  | Suspend p w k => Suspend p w (fun x w' => bindTask (k x w') f)
  end.

Definition ret {A : Type} (a : A) : Async A := fun w => Ret a w.
Definition bind {A B : Type} (m : Async A) (f : A -> Async B) : Async B :=
  fun w => bindTask (m w) f.
Definition throw {A : Type} (e : exn) : Async A := fun w => Raise e w.

(** [try { ... } catch (error) { ... }] *)
Fixpoint catchTask {A : Type} (t : Task A) (h : exn -> Async A) : Task A :=
  match t with
  | Ret a w => Ret a w
  | Raise e w => h e w
  | Suspend p w k => Suspend p w (fun x w' => catchTask (k x w') h)
  end.

Definition tryCatch {A : Type} (m : Async A) (h : exn -> Async A) : Async A :=
  fun w => catchTask (m w) h.

Definition await {X : Type} (p : Pending X) : Async X :=
  fun w => Suspend p w (fun x w' => Ret x w').

Definition modify (f : World -> World) : Async unit := fun w => Ret tt (f w).
Definition gets {A : Type} (f : World -> A) : Async A := fun w => Ret (f w) w.

Definition liftExn {A : Type} (r : exn + A) : Async A :=
  match r with
  | inl e => throw e
  | inr a => ret a
  end.

Declare Scope async_scope.
Delimit Scope async_scope with async.
Notation "x <- m ;; k" := (bind m (fun x => k))
  (at level 100, m at next level, right associativity) : async_scope.
Notation "m ;; k" := (bind m (fun _ => k))
  (at level 100, right associativity) : async_scope.
Open Scope async_scope.

(** ** Helpers on the page *)

Definition isWelcome (n : Node) : bool :=
  match n with WelcomeMessage => true | _ => false end.

Definition isTypingIndicator (n : Node) : bool :=
  match n with TypingIndicator => true | _ => false end.

(** [document.querySelector(sel)] followed by [.remove()] when the
    element exists: the first match in document order goes. *)
Fixpoint removeFirst (p : Node -> bool) (l : list Node) : list Node :=
  match l with
  | [] => []
  | n :: l' => if p n then l' else n :: removeFirst p l'
  end.

(** [welcomeMsg.insertAdjacentElement('afterend', n)] when the page has a
    welcome message, nothing otherwise. *)
Fixpoint insertAfterWelcome (n : Node) (l : list Node) : list Node :=
  match l with
  | [] => []
  | x :: l' => if isWelcome x then x :: n :: l' else x :: insertAfterWelcome n l'
  end.

Definition updateStatus (c : StatusClass) (text : StatusText) : Async unit :=
  modify (withStatus (c, text)).

Definition showDemoModeMessage : Async unit :=
  modify (withNodes (insertAfterWelcome DemoModeMessage)).

(** [addMessage] builds the bubble before it appends it, and
    [messageContent.textContent = content] converts the content to a
    string: where that conversion throws, nothing has been appended. *)
Definition addMessage (r : Role) (c : jsval) : Async unit :=
  if templateOk c
  then modify (withNodes (fun l => l ++ [Bubble r c]))
  else throw TypeError.

(** [chatState.messages.push(m)] *)
Definition pushMessage (m : Message) : Async unit :=
  modify (withMessages (fun l => l ++ [m])).

Definition showTypingIndicator : Async unit :=
  modify (withTyping true) ;;
  modify (withSendDisabled true) ;;
  modify (withNodes (fun l => l ++ [TypingIndicator])).

Definition hideTypingIndicator : Async unit :=
  modify (withNodes (removeFirst isTypingIndicator)) ;;
  modify (withTyping false) ;;
  modify (withSendDisabled false).

(** [await fetch(url, init)]: the request leaves when [fetch] is called. *)
Definition fetch (r : Request) : Async Response :=
  modify (withSent r) ;;
  o <- await AwaitFetch ;;
  match o with
  | Rejected => throw NetworkError
  | Responded resp => ret resp
  end.

(** [await response.json()] *)
Definition responseJson (r : Response) : Async json :=
  await AwaitJson ;;
  match resp_json r with
  | None => throw SyntaxError
  | Some d => ret d
  end.

(** ** checkAPIHealth *)

Definition checkAPIHealth : Async unit :=
  tryCatch
    (response <- fetch GetHealth ;;
     if ok response then
       data <- responseJson response ;;
       modify (withConnected true) ;;
       model <- liftExn (getProperty (Val data) (JsString.lit "model")) ;;
       (if templateOk model then ret tt else throw TypeError) ;;
       updateStatus online (ConnectedTo model)
     else
       throw ApiNotResponding)
    (fun _ =>
       modify (withConnected false) ;;
       updateStatus offline ApiOffline ;;
       showDemoModeMessage).

(** [initializeChat]; attaching the listeners changes nothing the model
    keeps. *)
Definition initializeChat : Async unit :=
  checkAPIHealth ;;
  ret tt.

(** ** getAIResponse *)

Definition roleName (r : Role) : jsstring :=
  match r with
  | user => JsString.lit "user"
  | assistant => JsString.lit "assistant"
  end.

(** What [JSON.stringify] writes for a parsed value, as the value
    that its text denotes: a number that is not finite is written
    [null], at any depth, and the rest is written as it is. *)
Fixpoint serialised (v : json) : json :=
  match v with
  | JInfinity _ => JNull
  | JArr items => JArr (map serialised items)
  | JObj fields => JObj (map (fun f => (fst f, serialised (snd f))) fields)
  | _ => v
  end.

(** What [JSON.stringify] writes for one entry: a member whose value is
    [undefined] is left out. *)
Definition messageJson (m : Message) : json :=
  JObj ((JsString.lit "role", JStr (roleName (role m))) ::
        match content m with
        | Undefined => []
        | Val v => [(JsString.lit "content", serialised v)]
        end).

(** The value whose serialisation is the request body:
    [{ messages: chatState.messages, temperature: 0.7, max_tokens: 500 }] *)
Definition chatBody (ms : list Message) : json :=
  JObj [ (JsString.lit "messages", JArr (map messageJson ms));
         (JsString.lit "temperature", JNum (7 # 10)%Q);
         (JsString.lit "max_tokens", JNum (500 # 1)%Q) ].

Definition apiErrorText : jsstring :=
  [9888; 65039]%N ++
  JsString.lit " Sorry, I encountered an error. The API might be unavailable. Please check if the FastAPI service is running on your edge server.".

Definition getAIResponse (userMessage : jsstring) : Async unit :=
  tryCatch
    (ms <- gets (fun w => messages (chatState w)) ;;
     response <- fetch (PostChat (chatBody ms)) ;;
     (if negb (ok response) then throw (ApiError (resp_status response)) else ret tt) ;;
     data <- responseJson response ;;
     message <- liftExn (getProperty (Val data) (JsString.lit "message")) ;;
     assistantMessage <- liftExn (getProperty message (JsString.lit "content")) ;;
     addMessage assistant assistantMessage ;;
     pushMessage (mkMessage assistant assistantMessage))
    (fun _ => addMessage assistant (Val (JStr apiErrorText))).

(** ** getDemoResponse, sendMessage, clearChat *)

Inductive DemoKey : Type := skills | projects | ai | default.

Definition demoResponses (k : DemoKey) : jsstring :=
  match k with
  | skills => JsString.lit "I'm a developer with expertise in JavaScript, HTML & CSS, React, Node.js, and Git. I've also built this AI chat interface using FastAPI and modern LLM integration!"
  | projects => JsString.lit "I've worked on various projects including this portfolio website with an integrated AI assistant. The AI backend is powered by a FastAPI microservice running on an edge server with Ollama for local LLM hosting."
  | ai => JsString.lit "This AI assistant is powered by a FastAPI microservice that I built. It uses OpenAI-compatible endpoints and can connect to Ollama or other LLM backends. The service runs on edge servers for better privacy and control."
  | default => JsString.lit "This is demo mode! To enable full AI capabilities, make sure the FastAPI microservice is running. Check out the API documentation for deployment instructions. You can ask me about my skills, projects, or how this AI system works!"
  end.

(** [lowerMessage.includes('...')] *)
Definition includesLit (lowerMessage : jsstring) (s : string) : bool :=
  JsString.includes lowerMessage (JsString.lit s).

(** The [if]/[else if] chain of [getDemoResponse], on the lower-cased
    message. *)
Definition demoKeyOf (lowerMessage : jsstring) : DemoKey :=
  if includesLit lowerMessage "skill" || includesLit lowerMessage "experience"
  then skills
  else if includesLit lowerMessage "project"
  then projects
  else if includesLit lowerMessage "ai" || includesLit lowerMessage "work"
          || includesLit lowerMessage "assistant"
  then ai
  else default.

Section Handlers.

(** [String.prototype.toLowerCase], the Unicode case mapping of the
    host. *)
Variable toLowerCase : jsstring -> jsstring.

Definition demoReply (userMessage : jsstring) : jsstring :=
  demoResponses (demoKeyOf (toLowerCase userMessage)).

Definition getDemoResponse (userMessage : jsstring) : Async unit :=
  await (AwaitTimer 1000) ;;
  let response := Val (JStr (demoReply userMessage)) in
  addMessage assistant response ;;
  pushMessage (mkMessage assistant response).

Definition sendMessage : Async unit :=
  message <- gets (fun w => JsString.trim (chatInput_value (page w))) ;;
  typing <- gets (fun w => isTyping (chatState w)) ;;
  match message with
  | [] => ret tt
  | _ :: _ =>
      if typing then ret tt
      else
        modify (withInput []) ;;
        modify (withNodes (removeFirst isWelcome)) ;;
        addMessage user (Val (JStr message)) ;;
        pushMessage (mkMessage user (Val (JStr message))) ;;
        showTypingIndicator ;;
        connected <- gets (fun w => isConnected (chatState w)) ;;
        (if connected then getAIResponse message else getDemoResponse message) ;;
        hideTypingIndicator
  end.

End Handlers.

(** [clearChat]; [confirmed] is what the visitor answers to
    [confirm('Are you sure you want to clear the chat history?')]. *)
Definition clearChat (confirmed : bool) : Async unit :=
  if confirmed then
    modify (withMessages (fun _ => [])) ;;
    modify (withNodes (fun _ => [WelcomeMessage]))
  else ret tt.

(** ** Running a handler with nothing in between *)

Inductive Result (A : Type) : Type :=
| Returned (a : A)
| Threw (e : exn).

Arguments Threw {A} e.

(** The answer to a pending [await]: the next outcome of the network for
    a [fetch], nothing to supply for the others. *)
Definition answer {X : Type} (p : Pending X) (net : list FetchOutcome)
  : option (X * list FetchOutcome) :=
  match p in Pending T return option (T * list FetchOutcome) with
  | AwaitFetch => match net with [] => None | o :: net' => Some (o, net') end
  | AwaitJson => Some (tt, net)
  | AwaitTimer _ => Some (tt, net)
  end.

(** [run t net]: the handler is resumed each time with the world it
    left, no other handler running in between; [None] when a [fetch]
    never settles. *)
Fixpoint run {A : Type} (t : Task A) (net : list FetchOutcome)
  : option (Result A * World) :=
  match t with
  | Ret a w => Some (Returned a, w)
  | Raise e w => Some (Threw e, w)
  | Suspend p w k =>
      match answer p net with
      | None => None
      | Some (x, net') => run (k x w) net'
      end
  end.

(** ** Observing a parked handler *)

Inductive Waiting : Type :=
| WaitFetch
| WaitJson
| WaitTimer (ms : Z).

Definition waitingOn {X : Type} (p : Pending X) : Waiting :=
  match p with
  | AwaitFetch => WaitFetch
  | AwaitJson => WaitJson
  | AwaitTimer ms => WaitTimer ms
  end.

(** What a handler waits for at its first [await], and the world it has
    left for the other handlers; [None] when it ran to its end. *)
Definition parked {A : Type} (t : Task A) : option (Waiting * World) :=
  match t with
  | Suspend p w _ => Some (waitingOn p, w)
  | _ => None
  end.

(** The member [messages] of a chat request, as it is serialised. *)
Definition requestMessages (r : Request) : option (list json) :=
  match r with
  | PostChat (JObj fields) =>
      match ownProperty (JsString.lit "messages") fields with
      | Val (JArr items) => Some items
      | _ => None
      end
  | _ => None
  end.

Definition requestMember (key : string) (r : Request) : jsval :=
  match r with
  | PostChat (JObj fields) => ownProperty (JsString.lit key) fields
  | _ => Undefined
  end.

(** The world an accepted [sendMessage] leaves behind at its [await]. *)
Definition afterSubmit (message : jsstring) (w : World) : World :=
  withNodes (fun l => l ++ [TypingIndicator])
    (withSendDisabled true
       (withTyping true
          (withMessages (fun l => l ++ [mkMessage user (Val (JStr message))])
             (withNodes (fun l => l ++ [Bubble user (Val (JStr message))])
                (withNodes (removeFirst isWelcome)
                   (withInput [] w)))))).

(** The end of [sendMessage]: [hideTypingIndicator]. *)
Definition afterHide (w : World) : World :=
  withSendDisabled false
    (withTyping false (withNodes (removeFirst isTypingIndicator) w)).

(** ** Vocabulary of the statements *)

(** [p] occurs in [s] as a contiguous run of code units. *)
Definition Contains (s p : jsstring) : Prop :=
  exists pre post, s = pre ++ p ++ post.

(** The case mapping on text in Basic Latin, where [toLowerCase] is
    fixed by the standard without reference to Unicode tables. *)
Definition asciiLower (s : jsstring) : jsstring := map JsString.lowerAscii s.

Definition AsciiCaseMapping (toLowerCase : jsstring -> jsstring) : Prop :=
  forall s, forallb JsString.isAscii s = true -> toLowerCase s = asciiLower s.

(** The demo categories as an ordered table of keywords, tried from the
    top, with [default] when no row matches. *)
Definition demoCategories : list (list string * DemoKey) :=
  [ (["skill"; "experience"]%string, skills);
    (["project"]%string, projects);
    (["ai"; "work"; "assistant"]%string, ai) ].

Fixpoint firstMatch (table : list (list string * DemoKey)) (lowerMessage : jsstring)
  : DemoKey :=
  match table with
  | [] => default
  | (keywords, k) :: rest =>
      if existsb (includesLit lowerMessage) keywords then k
      else firstMatch rest lowerMessage
  end.

(** The bubbles among the children of [#chatMessages], in order. *)
Fixpoint bubbles (l : list Node) : list (Role * jsval) :=
  match l with
  | [] => []
  | Bubble r c :: l' => (r, c) :: bubbles l'
  | _ :: l' => bubbles l'
  end.

(** What [data.message.content] evaluates to for an answer of the
    network, or the exception thrown on the way to it. *)
Definition replyContent (o : FetchOutcome) : exn + jsval :=
  match o with
  | Rejected => inl NetworkError
  | Responded r =>
      if ok r then
        match resp_json r with
        | None => inl SyntaxError
        | Some data =>
            match getProperty (Val data) (JsString.lit "message") with
            | inl e => inl e
            | inr message => getProperty message (JsString.lit "content")
            end
        end
      else inl (ApiError (resp_status r))
  end.

(** The content that [getAIResponse] gets to show and push: the value
    of [data.message.content] when [addMessage] can print it, or the
    exception that sends the handler to its [catch]. *)
Definition replyShown (o : FetchOutcome) : exn + jsval :=
  match replyContent o with
  | inl e => inl e
  | inr v => if templateOk v then inr v else inl TypeError
  end.

(** A parsed value and the value that the server reads off the request:
    the same, but for [null] where a number is not finite. *)
Inductive OnWire : json -> json -> Prop :=
| wire_null : OnWire JNull JNull
| wire_bool b : OnWire (JBool b) (JBool b)
| wire_number q : OnWire (JNum q) (JNum q)
| wire_infinity negative : OnWire (JInfinity negative) JNull
| wire_string s : OnWire (JStr s) (JStr s)
| wire_array items items' :
    Forall2 OnWire items items' -> OnWire (JArr items) (JArr items')
| wire_object fields fields' :
    Forall2 (fun f f' => fst f = fst f' /\ OnWire (snd f) (snd f')) fields fields' ->
    OnWire (JObj fields) (JObj fields').

(** An entry of the transcript and the object that stands for it in the
    request: its role by name, then its content when it has one. *)
Inductive WireEntry : Message -> json -> Prop :=
| wire_user v v' :
    OnWire v v' ->
    WireEntry (mkMessage user (Val v))
      (JObj [ (JsString.lit "role", JStr (JsString.lit "user"));
              (JsString.lit "content", v') ])
| wire_assistant v v' :
    OnWire v v' ->
    WireEntry (mkMessage assistant (Val v))
      (JObj [ (JsString.lit "role", JStr (JsString.lit "assistant"));
              (JsString.lit "content", v') ])
| wire_user_bare :
    WireEntry (mkMessage user Undefined)
      (JObj [ (JsString.lit "role", JStr (JsString.lit "user")) ])
| wire_assistant_bare :
    WireEntry (mkMessage assistant Undefined)
      (JObj [ (JsString.lit "role", JStr (JsString.lit "assistant")) ]).

(** A Gateway call that fails for [getAIResponse]: the fetch rejects,
    the status is not a success, the body is not JSON, or the body is
    [null] or has a [message] that is absent or [null], so that reading
    [content] throws. *)
Inductive CallFails : FetchOutcome -> Prop :=
| fails_network : CallFails Rejected
| fails_status r : ok r = false -> CallFails (Responded r)
| fails_not_json r : ok r = true -> resp_json r = None -> CallFails (Responded r)
| fails_no_message r data :
    ok r = true -> resp_json r = Some data ->
    (data = JNull \/
     getProperty (Val data) (JsString.lit "message") = inr Undefined \/
     getProperty (Val data) (JsString.lit "message") = inr (Val JNull)) ->
    CallFails (Responded r).

(** The answers to the health probe after which [checkAPIHealth] ends
    online: a success status, a JSON body other than [null], and a
    [model] member that the status line can print. *)
Definition healthy (o : FetchOutcome) : bool :=
  match o with
  | Rejected => false
  | Responded r =>
      ok r &&
      match resp_json r with
      | None => false
      | Some JNull => false
      | Some data =>
          match getProperty (Val data) (JsString.lit "model") with
          | inl _ => false
          | inr model => templateOk model
          end
      end
  end.

(** A handler that ends without an uncaught exception, whatever its
    [await]s are answered with and whatever the other handlers have made
    of the world in between. *)
Inductive NeverThrows {A : Type} : Task A -> Prop :=
| nt_ret a w : NeverThrows (Ret a w)
| nt_suspend X (p : Pending X) w k :
    (forall x w', NeverThrows (k x w')) -> NeverThrows (Suspend p w k).

(** Sample worlds: a page as it loads, with text typed into the input. *)
Definition freshPage (typed : string) : Page :=
  mkPage (JsString.lit typed) [WelcomeMessage] false None.

Definition liveWorld (typed : string) : World :=
  mkWorld (mkChatState [] true false) (freshPage typed) [].

Definition demoWorld (typed : string) : World :=
  mkWorld (mkChatState [] false false) (freshPage typed) [].

(** The world that a LIVE submission of [hi] has left at its [await],
    with more text typed since. *)
Definition busyWorld : World :=
  withInput (JsString.lit "and another thing")
    (withSent
       (PostChat (chatBody (messages (chatState (afterSubmit (JsString.lit "hi") (liveWorld "hi"))))))
       (afterSubmit (JsString.lit "hi") (liveWorld "hi"))).

(** A reply with status 200 whose [message] has no [content]. *)
Definition replyWithoutContent : FetchOutcome :=
  Responded (mkResponse 200 (Some (JObj [(JsString.lit "message", JObj [])]))).

(** A world with one exchange on record. *)
Definition chattedWorld : World :=
  mkWorld
    (mkChatState
       [ mkMessage user (Val (JStr (JsString.lit "hi")));
         mkMessage assistant (Val (JStr (JsString.lit "hello"))) ]
       true false)
    (mkPage []
       [ Bubble user (Val (JStr (JsString.lit "hi")));
         Bubble assistant (Val (JStr (JsString.lit "hello"))) ]
       false None)
    [].

(** The same world with a follow-up typed. *)
Definition followUpWorld : World :=
  withInput (JsString.lit " and you? ") chattedWorld.

(** A probe answered with status 200 and the body [null]. *)
Definition nullHealthReply : FetchOutcome :=
  Responded (mkResponse 200 (Some JNull)).

Arguments apiErrorText : simpl never.
Arguments getProperty : simpl never.
Arguments JsString.lit : simpl never.
Arguments demoResponses : simpl never.

(** ** The Completion Gateway *)

Module Gateway.

(** The Gateway ([api/main.py]) is not among the sources at hand, of
    which only the README of the service remains; this module follows
    sections 3, 4.4 and 7 of the specification. *)

Record Message : Type := mkMessage {
  role : string;
  content : string
}.

Record ChatCompletionRequest : Type := mkRequest {
  messages : list Message;
  temperature : Q;
  max_tokens : Z
}.

Record Usage : Type := mkUsage {
  prompt_tokens : N;
  completion_tokens : N;
  total_tokens : N
}.

Record ChatCompletionResponse : Type := mkResponse {
  id : string;
  model : string;
  created : Z;
  message : Message;
  usage : Usage
}.

Inductive GatewayError : Type :=
| ValidationError
| GatewayUnavailable
| UpstreamMalformed.

(** The call in the shape of the model runtime: model name, sampling
    parameters, full message history. *)
Record NativeCall : Type := mkNativeCall {
  native_model : string;
  native_temperature : Q;
  native_max_tokens : Z;
  native_history : list Message
}.

(** What the runtime does with a call: it cannot be reached (refused
    or timed out), it answers with something unreadable, or it
    generates a text, with its token counts when it reports them. *)
Inductive RuntimeOutcome : Type :=
| Unreachable
| Unreadable
| Generated (text : string) (counts : option (N * N)).

(** What the service takes from its host on each call: the clock and
    the source of identifiers, here the number of identifiers handed
    out so far. *)
Record Host : Type := mkHost {
  now : Z;
  issued : nat
}.

Definition recognizedRole (r : string) : bool :=
  String.eqb r "user" || String.eqb r "assistant".

Definition validMessage (m : Message) : bool :=
  recognizedRole (role m) && negb (String.eqb (content m) "").

(** [messages] is not empty, and every entry has a recognized role and
    a content that is not empty. *)
Definition validRequest (r : ChatCompletionRequest) : bool :=
  match messages r with
  | [] => false
  | _ :: _ => forallb validMessage (messages r)
  end.

(** Modelled from the spec: the generation of the response [id], part
    of the missing [api/main.py]; "a freshly generated unique id", drawn
    here from the host's count of identifiers handed out. *)
Definition freshId (h : Host) : string * Host :=
  (String.append "chatcmpl-" (NilEmpty.string_of_uint (Nat.to_uint (issued h))),
   mkHost (now h) (S (issued h))).

Section Service.

(** The configured default model and the estimate of a token count
    for when the runtime reports none. *)
Variable defaultModel : string.
Variable estimate : string -> N.
Variable runtime : NativeCall -> RuntimeOutcome.

Definition toNative (r : ChatCompletionRequest) : NativeCall :=
  mkNativeCall defaultModel (temperature r) (max_tokens r) (messages r).

Definition promptText (r : ChatCompletionRequest) : string :=
  String.concat " " (map content (messages r)).

Definition usageOf (r : ChatCompletionRequest) (text : string)
    (counts : option (N * N)) : Usage :=
  let (p, c) :=
    match counts with
    | Some pc => pc
    | None => (estimate (promptText r), estimate text)
    end in
  mkUsage p c (p + c).

(** Modelled from the spec: the handler of [POST /v1/chat/completions]
    in the missing [api/main.py].  It validates the request, calls the
    runtime in its native shape, and on a generated text builds the
    response with a fresh id, the current time and the usage figures
    reported or estimated; a runtime that fails gives an error, never a
    made-up reply. *)
Definition chatCompletion (r : ChatCompletionRequest) (h : Host)
  : (GatewayError + ChatCompletionResponse) * Host :=
  if validRequest r then
    match runtime (toNative r) with
    | Unreachable => (inl GatewayUnavailable, h)
    | Unreadable => (inl UpstreamMalformed, h)
    | Generated text counts =>
        let (i, h') := freshId h in
        (inr (mkResponse i defaultModel (now h)
                (mkMessage "assistant" text) (usageOf r text counts)),
         h')
    end
  else (inl ValidationError, h).

(** One call after the other on the same host; the identifiers of
    the responses, in order. *)
Fixpoint idsOf (rs : list ChatCompletionRequest) (h : Host) : list string :=
  match rs with
  | [] => []
  | r :: rs' =>
      match chatCompletion r h with
      | (inr resp, h') => id resp :: idsOf rs' h'
      | (inl _, h') => idsOf rs' h'
      end
  end.

End Service.

(** The request and the runtime of the round trip of section 8: one
    user message [hi], and a runtime that says [hello]. *)
Definition hiRequest : ChatCompletionRequest :=
  mkRequest [mkMessage "user" "hi"] (7 # 10)%Q 50.

Definition helloRuntime (_ : NativeCall) : RuntimeOutcome :=
  Generated "hello" None.

Definition wordCount (s : string) : N := N.of_nat (String.length s).

(** The usage block of the example response in the README of the
    service. *)
Definition readmeUsage : Usage := mkUsage 15 128 143.

End Gateway.

(** ** The page as an event loop *)

(** What started a handler: the start of the page ([initializeChat] on
    [DOMContentLoaded]) or one of the listeners that
    [setupEventListeners] and [clearChat] attach. *)
Inductive Job : Type := Startup | Listener.

Definition isStartup (j : Job) : bool :=
  match j with Startup => true | Listener => false end.

(** A handler suspended at an [await], with the rest of its run. *)
Inductive Parked : Type :=
| Park (j : Job) (X : Type) (p : Pending X) (k : X -> World -> Task unit).

Arguments Park j {X} p k.

(** The page between two events: the shared world, whether
    [setupEventListeners] has run, the suspended handlers, and the
    exceptions that no handler caught. *)
Record Browser : Type := mkBrowser {
  world : World;
  listening : bool;
  jobs : list Parked;
  unhandled : list exn
}.

(** A handler has run up to [t].  [initializeChat] attaches the
    listeners when [checkAPIHealth] has returned. *)
Definition dispatch (j : Job) (t : Task unit) (b : Browser) : Browser :=
  match t with
  | Ret _ w => mkBrowser w (listening b || isStartup j) (jobs b) (unhandled b)
  | Raise e w => mkBrowser w (listening b) (jobs b) (unhandled b ++ [e])
  | Suspend p w k => mkBrowser w (listening b) (jobs b ++ [Park j p k]) (unhandled b)
  end.

(** What settles an [await]. *)
Inductive Answer : Type :=
| Fetched (o : FetchOutcome)
| BodyRead
| TimerFired.

Definition resume {X : Type} (p : Pending X)
  : (X -> World -> Task unit) -> Answer -> option (World -> Task unit) :=
  match p in Pending T
        return (T -> World -> Task unit) -> Answer -> option (World -> Task unit) with
  | AwaitFetch => fun k a => match a with Fetched o => Some (k o) | _ => None end
  | AwaitJson => fun k a => match a with BodyRead => Some (k tt) | _ => None end
  | AwaitTimer _ => fun k a => match a with TimerFired => Some (k tt) | _ => None end
  end.

Fixpoint dropNth {A : Type} (i : nat) (l : list A) : list A :=
  match l, i with
  | [], _ => []
  | _ :: l', O => l'
  | x :: l', S i' => x :: dropNth i' l'
  end.

(** What can happen to the page: the visitor edits the input, clicks
    the send button, presses a key in the input, clicks a suggested
    prompt or the clear button (and answers the confirmation), or the
    [i]-th suspended handler gets its answer. *)
Inductive Event : Type :=
| Input (value : jsstring)
| ClickSend
| KeyDown (key : jsstring) (shiftKey : bool)
| ClickPrompt (prompt : jsstring)
| ClickClear (confirmed : bool)
| Settle (i : nat) (a : Answer).

Section EventLoop.

Variable toLowerCase : jsstring -> jsstring.

(** One event.  A listener that is not attached, a click on the
    disabled send button, and an answer that no suspended handler waits
    for leave the page as it is.  A suggested prompt can carry any
    text. *)
Definition fire (e : Event) (b : Browser) : Browser :=
  match e with
  | Input value =>
      mkBrowser (withInput value (world b)) (listening b) (jobs b) (unhandled b)
  | ClickSend =>
      if listening b && negb (sendBtn_disabled (page (world b)))
      then dispatch Listener (sendMessage toLowerCase (world b)) b
      else b
  | KeyDown key shiftKey =>
      if listening b && JsString.eqb key (JsString.lit "Enter") && negb shiftKey
      then dispatch Listener (sendMessage toLowerCase (world b)) b
      else b
  | ClickPrompt prompt =>
      if listening b
      then dispatch Listener
             ((modify (withInput prompt) ;; sendMessage toLowerCase) (world b)) b
      else b
  | ClickClear confirmed =>
      if listening b then dispatch Listener (clearChat confirmed (world b)) b else b
  | Settle i a =>
      match nth_error (jobs b) i with
      | Some (Park j p k) =>
          match resume p k a with
          | Some t =>
              dispatch j (t (world b))
                (mkBrowser (world b) (listening b) (dropNth i (jobs b)) (unhandled b))
          | None => b
          end
      | None => b
      end
  end.

Definition fireAll (es : list Event) (b : Browser) : Browser :=
  fold_left (fun b e => fire e b) es b.

End EventLoop.

(** The page when the script has run and [DOMContentLoaded] has called
    [initializeChat], on the markup [p]. *)
Definition boot (p : Page) : Browser :=
  dispatch Startup
    (initializeChat (mkWorld initialChatState p []))
    (mkBrowser (mkWorld initialChatState p []) false [] []).

(** A page with its listeners attached and nothing suspended. *)
Definition idle (w : World) : Browser := mkBrowser w true [] [].

(** ** Vocabulary of the invariants *)

(** A continuation that returns at once, whatever it is resumed with. *)
Definition Final (done : World -> World -> Prop) {X : Type}
    (k : X -> World -> Task unit) : Prop :=
  forall x w, exists w', k x w = Ret tt w' /\ done w w'.

(** What a resumed handler does: it returns, or it waits once more, for
    the body of the response, and returns then. *)
Definition Resumed (done : World -> World -> Prop) (t : World -> Task unit) : Prop :=
  forall w,
    (exists w', t w = Ret tt w' /\ done w w') \/
    (exists k2, t w = Suspend AwaitJson w k2 /\ Final done k2).

Definition Waits (done : World -> World -> Prop) {X : Type} (p : Pending X)
  : (X -> World -> Task unit) -> Prop :=
  match p in Pending T return (T -> World -> Task unit) -> Prop with
  | AwaitFetch => fun k => forall o, Resumed done (k o)
  | AwaitJson => fun k => Final done k
  | AwaitTimer _ => fun k => Final done k
  end.

(** How many typing indicators the page shows. *)
Definition indicators (l : list Node) : nat :=
  List.length (filter isTypingIndicator l).

(** What the rest of a submission does to the world it is resumed in:
    one assistant bubble, at most that reply pushed, the pending state
    left. *)
Definition SendDone (w w' : World) : Prop :=
  isTyping (chatState w') = false /\
  sendBtn_disabled (page w') = false /\
  isConnected (chatState w') = isConnected (chatState w) /\
  sent w' = sent w /\
  chatInput_value (page w') = chatInput_value (page w) /\
  exists v,
    chatMessages (page w')
    = removeFirst isTypingIndicator (chatMessages (page w) ++ [Bubble assistant v]) /\
    (messages (chatState w') = messages (chatState w) \/
     messages (chatState w') = messages (chatState w) ++ [mkMessage assistant v]).

(** What the rest of [checkAPIHealth] leaves alone. *)
Definition StartupDone (w w' : World) : Prop :=
  messages (chatState w') = messages (chatState w) /\
  isTyping (chatState w') = isTyping (chatState w) /\
  sent w' = sent w /\
  chatInput_value (page w') = chatInput_value (page w) /\
  sendBtn_disabled (page w') = sendBtn_disabled (page w) /\
  bubbles (chatMessages (page w')) = bubbles (chatMessages (page w)) /\
  indicators (chatMessages (page w')) = indicators (chatMessages (page w)).

Definition Pristine (w : World) : Prop :=
  chatState w = initialChatState /\ sent w = [GetHealth].

Inductive Phase (b : Browser) : Prop :=
| phase_startup X (p : Pending X) k :
    listening b = false -> jobs b = [Park Startup p k] ->
    Waits StartupDone p k -> Pristine (world b) -> Phase b
| phase_idle :
    listening b = true -> jobs b = [] ->
    isTyping (chatState (world b)) = false -> Phase b
| phase_flight X (p : Pending X) k :
    listening b = true -> jobs b = [Park Listener p k] ->
    Waits SendDone p k -> isTyping (chatState (world b)) = true -> Phase b.

Definition isAssistant (m : Message) : bool :=
  match role m with assistant => true | user => false end.

(** No assistant entry right after another. *)
Fixpoint noAssistantTwice (l : list Message) : bool :=
  match l with
  | a :: (b :: _) as rest => negb (isAssistant a && isAssistant b) && noAssistantTwice rest
  | _ => true
  end.

Fixpoint endsWithAssistant (l : list Message) : bool :=
  match l with
  | [] => false
  | [a] => isAssistant a
  | _ :: rest => endsWithAssistant rest
  end.

(** A chat request whose [messages] end with an entry of the user. *)
Definition ChatPost (r : Request) : Prop :=
  exists ms text,
    r = PostChat (chatBody (ms ++ [mkMessage user (Val (JStr text))])).

Record Sound (b : Browser) : Prop := mkSound {
  sound_phase : Phase b;
  sound_unhandled : unhandled b = [];
  sound_sent : exists chats, sent (world b) = GetHealth :: chats /\ Forall ChatPost chats;
  sound_demo : isConnected (chatState (world b)) = false -> sent (world b) = [GetHealth];
  sound_turns : noAssistantTwice (messages (chatState (world b))) = true;
  sound_open : isTyping (chatState (world b)) = true ->
               endsWithAssistant (messages (chatState (world b))) = false;
  sound_button : isTyping (chatState (world b)) = true ->
                 sendBtn_disabled (page (world b)) = true
}.


(** At most one typing indicator, and none when nothing is in flight. *)
Definition Tidy (b : Browser) : Prop :=
  indicators (chatMessages (page (world b)))
  <= (if isTyping (chatState (world b)) then 1 else 0).

(** The value of [data.message.content] when it can be read. *)
Definition replyValue (o : FetchOutcome) : jsval :=
  match replyContent o with
  | inr v => v
  | inl _ => Undefined
  end.

(** The events of one turn typed and sent with the Enter key: in DEMO
    mode until the timer fires, in LIVE mode until the body is read. *)
Definition demoTurn (text : jsstring) : list Event :=
  [Input text; KeyDown (JsString.lit "Enter") false; Settle 0 TimerFired].

Definition liveTurn (turn : jsstring * FetchOutcome) : list Event :=
  [Input (fst turn); KeyDown (JsString.lit "Enter") false;
   Settle 0 (Fetched (snd turn)); Settle 0 BodyRead].

(** The entries that a turn leaves in the transcript. *)
Definition exchange (text : jsstring) (reply : jsval) : list Message :=
  match JsString.trim text with
  | [] => []
  | c :: m => [mkMessage user (Val (JStr (c :: m))); mkMessage assistant reply]
  end.

(** The settlements that end whatever is in flight. *)
Definition drain (o : FetchOutcome) : list Event :=
  [Settle 0 (Fetched o); Settle 0 BodyRead; Settle 0 TimerFired].

Definition isSettle (e : Event) : bool :=
  match e with Settle _ _ => true | _ => false end.

Definition isInput (e : Event) : bool :=
  match e with Input _ => true | _ => false end.

(** Sample histories: the probe is refused, then [hi] is sent with the
    Enter key; and the same with the probe still unanswered. *)
Definition offlineHistory : list Event :=
  [Settle 0 (Fetched Rejected); KeyDown (JsString.lit "Enter") false].

Definition unansweredHistory : list Event :=
  [Input (JsString.lit "anyone?"); KeyDown (JsString.lit "Enter") false; ClickSend;
   ClickClear true].

(** The chat requests of a run of LIVE turns that starts with the
    transcript [ms]: each carries the transcript so far and the entry
    just typed. *)
Fixpoint liveRequests (ms : list Message) (turns : list (jsstring * FetchOutcome))
  : list Request :=
  match turns with
  | [] => []
  | turn :: rest =>
      match JsString.trim (fst turn) with
      | [] => liveRequests ms rest
      | c :: m =>
          PostChat (chatBody (ms ++ [mkMessage user (Val (JStr (c :: m)))]))
          :: liveRequests (ms ++ exchange (fst turn) (replyValue (snd turn))) rest
      end
  end.

(** A reply with status 200 and the content [text]. *)
Definition okReply (text : string) : FetchOutcome :=
  Responded
    (mkResponse 200
       (Some (JObj [(JsString.lit "message",
                     JObj [(JsString.lit "content", JStr (JsString.lit text))])]))).

(** A reply with status 200 whose content is a number too large for a
    double, which [JSON.parse] reads as [Infinity]. *)
Definition hugeNumberReply : FetchOutcome :=
  Responded
    (mkResponse 200
       (Some (JObj [(JsString.lit "message",
                     JObj [(JsString.lit "content", JInfinity false)])]))).

Definition sampleTurns : list (jsstring * FetchOutcome) :=
  [ (JsString.lit " hi ", hugeNumberReply);
    (JsString.lit "and you?", okReply "fine") ].

(** ** The navigation bar *)

(** A [section[id]] or [header[id]] of the page, and a link of
    [.nav-menu]; of the classes of a link only [active] is kept, and
    [href] is [None] when the attribute is missing. *)
Record PageSection : Type := mkPageSection {
  section_id : jsstring;
  offsetTop : Z
}.

Record NavLink : Type := mkNavLink {
  href : option jsstring;
  active : bool
}.

Record NavBar : Type := mkNavBar {
  navLinks : list NavLink;
  scrolled : bool                       (* the class [scrolled] of [.nav] *)
}.

(** [window.scrollY >= sectionTop - 100] *)
Definition reached (scrollY : Q) (s : PageSection) : bool :=
  Qle_bool (inject_Z (offsetTop s - 100)) scrollY.

(** The [current] of the scroll listener after its loop over the
    sections, in document order. *)
Definition currentSection (sections : list PageSection) (scrollY : Q) : jsstring :=
  fold_left
    (fun current s => if reached scrollY s then section_id s else current)
    sections [].

(** [link.getAttribute('href') === `#${current}`] *)
Definition pointsAt (current : jsstring) (l : NavLink) : bool :=
  match href l with
  | Some h => JsString.eqb h (35%N :: current)
  | None => false
  end.

(** The scroll listener. *)
Definition onScroll (sections : list PageSection) (scrollY : Q) (nav : NavBar) : NavBar :=
  let current := currentSection sections scrollY in
  mkNavBar
    (map (fun l => mkNavLink (href l) (pointsAt current l)) (navLinks nav))
    (negb (Qle_bool scrollY (inject_Z 50))).

(** A page of three sections and its menu, with nothing highlighted. *)
Definition sampleSections : list PageSection :=
  [ mkPageSection (JsString.lit "home") 0;
    mkPageSection (JsString.lit "about") 600;
    mkPageSection (JsString.lit "contact") 1400 ].

Definition sampleNav : NavBar :=
  mkNavBar
    [ mkNavLink (Some (JsString.lit "#home")) true;
      mkNavLink (Some (JsString.lit "#about")) false;
      mkNavLink (Some (JsString.lit "#")) false;
      mkNavLink None true ]
    false.

(** ** Lemmas on strings *)

Lemma trimStart_blank (s : jsstring) :
  forallb JsString.isWhite s = true -> JsString.trimStart s = [].
Proof.
  induction s as [|c s IH]; simpl; [reflexivity|].
  intros H. apply andb_prop in H. destruct H as [Hc Hs].
  rewrite Hc. auto.
Qed.

Lemma trimStart_nil_blank (s : jsstring) :
  JsString.trimStart s = [] -> forallb JsString.isWhite s = true.
Proof.
  induction s as [|c s IH]; simpl; [reflexivity|].
  destruct (JsString.isWhite c); simpl; [exact IH | discriminate].
Qed.

Lemma trimStart_suffix (s : jsstring) :
  exists pre, s = pre ++ JsString.trimStart s /\ forallb JsString.isWhite pre = true.
Proof.
  induction s as [|c s [pre [E B]]]; simpl.
  - exists []. split; reflexivity.
  - destruct (JsString.isWhite c) eqn:W.
    + exists (c :: pre). simpl. rewrite W, B. split; [f_equal; exact E | reflexivity].
    + exists []. split; reflexivity.
Qed.

Lemma trim_blank (s : jsstring) :
  forallb JsString.isWhite s = true -> JsString.trim s = [].
Proof.
  intros H. unfold JsString.trim, JsString.trimEnd.
  rewrite (trimStart_blank s H). reflexivity.
Qed.

Lemma trim_nil_blank (s : jsstring) :
  JsString.trim s = [] -> forallb JsString.isWhite s = true.
Proof.
  unfold JsString.trim, JsString.trimEnd. intros H.
  destruct (trimStart_suffix s) as [pre [E B]].
  assert (R : rev (JsString.trimStart s) = rev (JsString.trimStart s)) by reflexivity.
  apply (f_equal (@rev N)) in H. rewrite rev_involutive in H. simpl in H.
  apply trimStart_nil_blank in H.
  rewrite E, forallb_app, B. simpl.
  rewrite forallb_forall in *. intros x Hx. apply H. apply in_rev in Hx. exact Hx.
Qed.

(** [trim] leaves something exactly when some code unit is not white
    space. *)
Lemma trim_nonblank (s : jsstring) :
  forallb JsString.isWhite s = false <-> JsString.trim s <> [].
Proof.
  split.
  - intros H E. apply trim_nil_blank in E. congruence.
  - intros H. destruct (forallb JsString.isWhite s) eqn:E; [|reflexivity].
    exfalso. apply H. apply trim_blank. exact E.
Qed.

Lemma eqb_N_list (a b : jsstring) : JsString.eqb a b = true <-> a = b.
Proof.
  revert b. induction a as [|x a IH]; intros [|y b]; simpl; split; intros H;
    try reflexivity; try discriminate.
  - apply andb_prop in H. destruct H as [H1 H2].
    apply N.eqb_eq in H1. apply IH in H2. subst. reflexivity.
  - injection H as -> ->. rewrite N.eqb_refl. simpl. apply IH. reflexivity.
Qed.

Lemma startsWith_spec (s p : jsstring) :
  JsString.startsWith s p = true <-> exists rest, s = p ++ rest.
Proof.
  revert s. induction p as [|x p IH]; intros s; simpl.
  - split; [intros _; exists s; reflexivity | reflexivity].
  - destruct s as [|y s].
    + split; [discriminate | intros [rest H]; discriminate].
    + split.
      * intros H. apply andb_prop in H. destruct H as [H1 H2].
        apply N.eqb_eq in H1. apply IH in H2. destruct H2 as [rest ->].
        subst. exists rest. reflexivity.
      * intros [rest H]. injection H as -> ->.
        rewrite N.eqb_refl. simpl. apply IH. exists rest. reflexivity.
Qed.

(** [includes] is containment as a contiguous run of code units. *)
Lemma includes_spec (s p : jsstring) :
  JsString.includes s p = true <-> exists pre post, s = pre ++ p ++ post.
Proof.
  induction s as [|c s IH].
  - simpl. rewrite orb_false_r, startsWith_spec. split.
    + intros [rest H]. exists [], rest. exact H.
    + intros [pre [post H]]. destruct pre; simpl in H.
      * exists post. exact H.
      * discriminate.
  - change (JsString.includes (c :: s) p)
      with (JsString.startsWith (c :: s) p || JsString.includes s p).
    rewrite orb_true_iff, startsWith_spec, IH. split.
    + intros [[rest H] | [pre [post H]]].
      * exists [], rest. exact H.
      * exists (c :: pre), post. simpl. rewrite H. reflexivity.
    + intros [pre [post H]]. destruct pre as [|d pre]; simpl in H.
      * left. exists post. exact H.
      * right. injection H as _ H. exists pre, post. exact H.
Qed.

(** ** The two ends of an accepted submission *)

Section Submission.

Variable toLowerCase : jsstring -> jsstring.
Variables (w : World) (c : N) (m : jsstring).
Hypothesis typed : JsString.trim (chatInput_value (page w)) = c :: m.
Hypothesis idle : isTyping (chatState w) = false.

Let message : jsstring := c :: m.
Let request : Request := PostChat (chatBody (messages (chatState (afterSubmit message w)))).

Lemma sendMessage_live_parked :
  isConnected (chatState w) = true ->
  parked (sendMessage toLowerCase w)
  = Some (WaitFetch, withSent request (afterSubmit message w)).
Proof.
  intros live. unfold sendMessage, bind, gets. cbn.
  rewrite typed, idle. cbn. rewrite live. reflexivity.
Qed.

Lemma sendMessage_demo_parked :
  isConnected (chatState w) = false ->
  parked (sendMessage toLowerCase w)
  = Some (WaitTimer 1000, afterSubmit message w).
Proof.
  intros demo. unfold sendMessage, bind, gets. cbn.
  rewrite typed, idle. cbn. rewrite demo. reflexivity.
Qed.

Lemma sendMessage_live_run (o : FetchOutcome) :
  isConnected (chatState w) = true ->
  run (sendMessage toLowerCase w) [o]
  = Some (Returned tt,
          afterHide
            (match replyShown o with
             | inr v =>
                 withMessages (fun l => l ++ [mkMessage assistant v])
                   (withNodes (fun l => l ++ [Bubble assistant v])
                      (withSent request (afterSubmit message w)))
             | inl _ =>
                 withNodes (fun l => l ++ [Bubble assistant (Val (JStr apiErrorText))])
                   (withSent request (afterSubmit message w))
             end)).
Proof.
  intros live. unfold sendMessage, bind, gets, replyShown. cbn.
  rewrite typed, idle. cbn. rewrite live. cbn.
  destruct o as [|r]; cbn; [reflexivity|].
  destruct (ok r); cbn; [|reflexivity].
  destruct (resp_json r) as [data|]; cbn; [|reflexivity].
  destruct (getProperty (Val data) (JsString.lit "message")) as [e|msg]; cbn;
    [reflexivity|].
  destruct (getProperty msg (JsString.lit "content")) as [e|v]; cbn;
    [reflexivity|].
  unfold addMessage. destruct (templateOk v); reflexivity.
Qed.

Lemma sendMessage_demo_run (net : list FetchOutcome) :
  isConnected (chatState w) = false ->
  run (sendMessage toLowerCase w) net
  = Some (Returned tt,
          afterHide
            (withMessages
               (fun l => l ++ [mkMessage assistant (Val (JStr (demoReply toLowerCase message)))])
               (withNodes
                  (fun l => l ++ [Bubble assistant (Val (JStr (demoReply toLowerCase message)))])
                  (afterSubmit message w)))).
Proof.
  intros demo. unfold sendMessage, bind, gets. cbn.
  rewrite typed, idle. cbn. rewrite demo. reflexivity.
Qed.

End Submission.

Lemma CallFails_replyContent (o : FetchOutcome) :
  CallFails o <-> exists e, replyContent o = inl e.
Proof.
  split.
  - intros H. destruct H as [|r H|r H J|r data H J D]; simpl.
    + eexists; reflexivity.
    + rewrite H. eexists; reflexivity.
    + rewrite H, J. eexists; reflexivity.
    + rewrite H, J. destruct D as [-> | [D | D]].
      * eexists; reflexivity.
      * rewrite D. eexists; reflexivity.
      * rewrite D. eexists; reflexivity.
  - intros [e H]. destruct o as [|r]; [constructor|].
    simpl in H. destruct (ok r) eqn:K; [|apply fails_status; exact K].
    destruct (resp_json r) as [data|] eqn:J; [|apply fails_not_json; assumption].
    apply fails_no_message with data; try assumption.
    destruct data; try discriminate; auto.
    unfold getProperty in *.
    destruct (ownProperty (JsString.lit "message") fields) as [|v]; auto.
    destruct v; try discriminate; auto.
Qed.

Lemma CallFails_replyShown (o : FetchOutcome) :
  CallFails o -> exists e, replyShown o = inl e.
Proof.
  intros H. apply CallFails_replyContent in H. destruct H as [e H].
  exists e. unfold replyShown. rewrite H. reflexivity.
Qed.

Lemma bubbles_app (l l' : list Node) : bubbles (l ++ l') = bubbles l ++ bubbles l'.
Proof.
  induction l as [|n l IH]; simpl; [reflexivity|].
  destruct n; simpl; rewrite ?IH; reflexivity.
Qed.

Lemma bubbles_removeFirst (p : Node -> bool) (l : list Node) :
  (forall r c, p (Bubble r c) = false) ->
  bubbles (removeFirst p l) = bubbles l.
Proof.
  intros Hp. induction l as [|n l IH]; simpl; [reflexivity|].
  destruct (p n) eqn:E.
  - destruct n; try reflexivity. rewrite Hp in E. discriminate.
  - destruct n; simpl; rewrite IH; reflexivity.
Qed.

Section Transcript.

Variable toLowerCase : jsstring -> jsstring.
Variables (w : World) (c : N) (m : jsstring).
Hypothesis typed : JsString.trim (chatInput_value (page w)) = c :: m.
Hypothesis idle : isTyping (chatState w) = false.

Let userEntry : Message := mkMessage user (Val (JStr (c :: m))).

(** DEMO mode: the user entry, then the canned reply. *)
Lemma sendMessage_demo_transcript (net : list FetchOutcome) :
  isConnected (chatState w) = false ->
  exists w',
    run (sendMessage toLowerCase w) net = Some (Returned tt, w') /\
    messages (chatState w')
    = messages (chatState w)
      ++ [userEntry; mkMessage assistant (Val (JStr (demoReply toLowerCase (c :: m))))] /\
    List.length (messages (chatState w')) = List.length (messages (chatState w)) + 2.
Proof.
  intros demo. eexists. split; [apply (@sendMessage_demo_run toLowerCase w c m typed idle net demo)|].
  cbn. rewrite <- app_assoc. split; [reflexivity|].
  rewrite length_app. reflexivity.
Qed.

(** LIVE mode, the reply read and shown: the user entry, then the
    reply. *)
Lemma sendMessage_live_success_transcript (o : FetchOutcome) (v : jsval) :
  isConnected (chatState w) = true ->
  replyShown o = inr v ->
  exists w',
    run (sendMessage toLowerCase w) [o] = Some (Returned tt, w') /\
    messages (chatState w') = messages (chatState w) ++ [userEntry; mkMessage assistant v] /\
    List.length (messages (chatState w')) = List.length (messages (chatState w)) + 2.
Proof.
  intros live reply. eexists. split; [apply (@sendMessage_live_run toLowerCase w c m typed idle o live)|].
  rewrite reply. cbn. rewrite <- app_assoc. split; [reflexivity|].
  rewrite length_app. reflexivity.
Qed.

(** LIVE mode, the call failed: the [catch] of [getAIResponse] shows
    the apology and pushes nothing. *)
Lemma sendMessage_live_failure_transcript (o : FetchOutcome) :
  isConnected (chatState w) = true ->
  CallFails o ->
  exists w',
    run (sendMessage toLowerCase w) [o] = Some (Returned tt, w') /\
    messages (chatState w') = messages (chatState w) ++ [userEntry] /\
    List.length (messages (chatState w')) = List.length (messages (chatState w)) + 1.
Proof.
  intros live fails. apply CallFails_replyShown in fails. destruct fails as [e reply].
  eexists. split; [apply (@sendMessage_live_run toLowerCase w c m typed idle o live)|].
  rewrite reply. cbn. split; [reflexivity|].
  rewrite length_app. reflexivity.
Qed.

End Transcript.

(** C1 (the code departs from the claim).  A LIVE submission of [hi]
    whose fetch rejects returns with one entry more in
    [chatState.messages], the user entry, where the claim has two. *)
Theorem sendMessage_failed_call_adds_one_entry :
  exists w',
    run (sendMessage asciiLower (liveWorld "hi")) [Rejected] = Some (Returned tt, w') /\
    messages (chatState w') = [mkMessage user (Val (JStr (JsString.lit "hi")))] /\
    List.length (messages (chatState w')) = List.length (messages (chatState (liveWorld "hi"))) + 1.
Proof.
  destruct (@sendMessage_live_failure_transcript asciiLower (liveWorld "hi") 104%N [105%N]
              eq_refl eq_refl Rejected eq_refl fails_network) as [w' [R [M L]]].
  exists w'. repeat split; assumption.
Qed.

(** C2.  A submission while a request is in flight ([isTyping]), or
    with input that is empty or white space only, returns at once and
    leaves the world as it was: [chatState.messages] and [isTyping]
    unchanged, nothing sent, nothing awaited. *)
Theorem sendMessage_rejected_is_noop
    (toLowerCase : jsstring -> jsstring) (w : World) :
  isTyping (chatState w) = true \/
  forallb JsString.isWhite (chatInput_value (page w)) = true ->
  sendMessage toLowerCase w = Ret tt w.
Proof.
  intros H. unfold sendMessage, bind, gets. cbn.
  destruct (JsString.trim (chatInput_value (page w))) as [|c m] eqn:T; cbn;
    [reflexivity|].
  destruct H as [H | H].
  - rewrite H. reflexivity.
  - apply trim_blank in H. congruence.
Qed.

Lemma sendMessage_rejected_is_noop_witness :
  (parked (sendMessage asciiLower (liveWorld "hi"))
   = Some (WaitFetch, withInput [] busyWorld)) /\
  sendMessage asciiLower busyWorld = Ret tt busyWorld /\
  sendMessage asciiLower (demoWorld "   ") = Ret tt (demoWorld "   ").
Proof.
  split; [reflexivity|]. split.
  - apply (sendMessage_rejected_is_noop asciiLower busyWorld). left. reflexivity.
  - apply (sendMessage_rejected_is_noop asciiLower (demoWorld "   ")). right. reflexivity.
Defined.

Lemma requestMessages_chatBody (ms : list Message) :
  requestMessages (PostChat (chatBody ms)) = Some (map messageJson ms).
Proof. reflexivity. Qed.

Lemma requestMember_chatBody (ms : list Message) :
  requestMember "temperature" (PostChat (chatBody ms)) = Val (JNum (7 # 10)%Q) /\
  requestMember "max_tokens" (PostChat (chatBody ms)) = Val (JNum (500 # 1)%Q).
Proof. split; reflexivity. Qed.

Lemma serialised_OnWire : forall v, OnWire v (serialised v).
Proof.
  fix IH 1. intros [ | b | q | negative | s | items | fields]; simpl.
  - constructor.
  - constructor.
  - constructor.
  - constructor.
  - constructor.
  - constructor. induction items as [|x items IHitems]; simpl.
    + constructor.
    + constructor; [apply IH | exact IHitems].
  - constructor. induction fields as [|f fields IHfields]; simpl.
    + constructor.
    + constructor; [split; [reflexivity | apply IH] | exact IHfields].
Qed.

Lemma messageJson_WireEntry (e : Message) : WireEntry e (messageJson e).
Proof.
  destruct e as [[|] [|v]]; unfold messageJson; simpl;
    constructor; apply serialised_OnWire.
Qed.

Lemma transcript_WireEntry (ms : list Message) :
  Forall2 WireEntry ms (map messageJson ms).
Proof.
  induction ms as [|e ms IH]; simpl; constructor;
    [apply messageJson_WireEntry | exact IH].
Qed.

(** C7.  On a LIVE turn the request leaves with the whole of
    [chatState.messages] as its [messages] member: one object for each
    entry, in order, with the role by its name and the content as it is
    serialised, and the user entry just pushed at the tail. *)
Theorem sendMessage_sends_transcript_with_user_tail
    (toLowerCase : jsstring -> jsstring) (w : World) (c : N) (m : jsstring) :
  JsString.trim (chatInput_value (page w)) = c :: m ->
  isTyping (chatState w) = false ->
  isConnected (chatState w) = true ->
  exists w1 request items earlier,
    parked (sendMessage toLowerCase w) = Some (WaitFetch, w1) /\
    sent w1 = sent w ++ [request] /\
    messages (chatState w1)
    = messages (chatState w) ++ [mkMessage user (Val (JStr (c :: m)))] /\
    requestMessages request = Some items /\
    Forall2 WireEntry (messages (chatState w1)) items /\
    items = earlier ++ [JObj [ (JsString.lit "role", JStr (JsString.lit "user"));
                               (JsString.lit "content", JStr (c :: m)) ]] /\
    Forall2 WireEntry (messages (chatState w)) earlier.
Proof.
  intros typed idle live.
  eexists. eexists.
  exists (map messageJson
            (messages (chatState w) ++ [mkMessage user (Val (JStr (c :: m)))])).
  exists (map messageJson (messages (chatState w))).
  split.
  - apply (@sendMessage_live_parked toLowerCase w c m typed idle live).
  - cbn. split; [reflexivity|]. split; [reflexivity|].
    rewrite requestMessages_chatBody.
    split; [reflexivity|]. split; [apply transcript_WireEntry|].
    split; [rewrite map_app; reflexivity | apply transcript_WireEntry].
Qed.

Lemma sendMessage_sends_transcript_with_user_tail_witness :
  (exists w1 request items earlier,
     parked (sendMessage asciiLower followUpWorld) = Some (WaitFetch, w1) /\
     sent w1 = sent followUpWorld ++ [request] /\
     messages (chatState w1)
     = messages (chatState followUpWorld)
       ++ [mkMessage user (Val (JStr (JsString.lit "and you?")))] /\
     requestMessages request = Some items /\
     Forall2 WireEntry (messages (chatState w1)) items /\
     items = earlier ++ [JObj [ (JsString.lit "role", JStr (JsString.lit "user"));
                                (JsString.lit "content", JStr (JsString.lit "and you?")) ]] /\
     Forall2 WireEntry (messages (chatState followUpWorld)) earlier) /\
  option_map (fun wait => sent (snd wait)) (parked (sendMessage asciiLower followUpWorld))
  = Some
      [PostChat
         (JObj
            [ (JsString.lit "messages",
               JArr
                 [ JObj [ (JsString.lit "role", JStr (JsString.lit "user"));
                          (JsString.lit "content", JStr (JsString.lit "hi")) ];
                   JObj [ (JsString.lit "role", JStr (JsString.lit "assistant"));
                          (JsString.lit "content", JStr (JsString.lit "hello")) ];
                   JObj [ (JsString.lit "role", JStr (JsString.lit "user"));
                          (JsString.lit "content", JStr (JsString.lit "and you?")) ] ]);
              (JsString.lit "temperature", JNum (7 # 10)%Q);
              (JsString.lit "max_tokens", JNum (500 # 1)%Q) ])].
Proof.
  split.
  - apply (@sendMessage_sends_transcript_with_user_tail
             asciiLower followUpWorld 97%N (JsString.lit "nd you?")); reflexivity.
  - reflexivity.
Defined.

(** C9.  The request of a LIVE submission carries [temperature] 0.7 and
    [max_tokens] 500, whatever was typed and whatever the transcript
    holds. *)
Theorem sendMessage_fixed_sampling_parameters
    (toLowerCase : jsstring -> jsstring) (w : World) (c : N) (m : jsstring) :
  JsString.trim (chatInput_value (page w)) = c :: m ->
  isTyping (chatState w) = false ->
  isConnected (chatState w) = true ->
  exists w1 request,
    parked (sendMessage toLowerCase w) = Some (WaitFetch, w1) /\
    sent w1 = sent w ++ [request] /\
    requestMember "temperature" request = Val (JNum (7 # 10)%Q) /\
    requestMember "max_tokens" request = Val (JNum (500 # 1)%Q).
Proof.
  intros typed idle live.
  eexists. eexists. split.
  - apply (@sendMessage_live_parked toLowerCase w c m typed idle live).
  - cbn. split; [reflexivity|]. apply requestMember_chatBody.
Qed.

Lemma sendMessage_fixed_sampling_parameters_witness :
  exists w1 request,
    parked (sendMessage asciiLower (liveWorld "What projects have you worked on?"))
    = Some (WaitFetch, w1) /\
    sent w1 = sent (liveWorld "What projects have you worked on?") ++ [request] /\
    requestMember "temperature" request = Val (JNum (7 # 10)%Q) /\
    requestMember "max_tokens" request = Val (JNum (500 # 1)%Q).
Proof.
  eapply (@sendMessage_fixed_sampling_parameters
            asciiLower (liveWorld "What projects have you worked on?"));
    reflexivity.
Defined.

(** C4, as the code has it.  When the Gateway call of a LIVE turn fails
    (the fetch rejects, the status is not a success, the body is not
    JSON, or the body is [null] or its [message] is absent or [null]),
    the page gains the
    visitor's bubble and then one assistant bubble with the apology,
    and the session stays connected and leaves its pending state. *)
Theorem sendMessage_failed_call_shows_one_apology
    (toLowerCase : jsstring -> jsstring) (w : World) (c : N) (m : jsstring)
    (o : FetchOutcome) :
  JsString.trim (chatInput_value (page w)) = c :: m ->
  isTyping (chatState w) = false ->
  isConnected (chatState w) = true ->
  CallFails o ->
  exists w',
    run (sendMessage toLowerCase w) [o] = Some (Returned tt, w') /\
    bubbles (chatMessages (page w'))
    = bubbles (chatMessages (page w))
      ++ [(user, Val (JStr (c :: m))); (assistant, Val (JStr apiErrorText))] /\
    isConnected (chatState w') = true /\
    isTyping (chatState w') = false.
Proof.
  intros typed idle live fails.
  apply CallFails_replyShown in fails. destruct fails as [e reply].
  eexists. split.
  - apply (@sendMessage_live_run toLowerCase w c m typed idle o live).
  - rewrite reply. cbn. split; [|split; [exact live | reflexivity]].
    rewrite bubbles_removeFirst by reflexivity.
    rewrite !bubbles_app. rewrite bubbles_removeFirst by reflexivity.
    cbn. rewrite <- !app_assoc. reflexivity.
Qed.

Lemma sendMessage_failed_call_shows_one_apology_witness :
  exists w',
    run (sendMessage asciiLower (liveWorld "hi")) [Responded (mkResponse 503 None)]
    = Some (Returned tt, w') /\
    bubbles (chatMessages (page w'))
    = bubbles (chatMessages (page (liveWorld "hi")))
      ++ [(user, Val (JStr (JsString.lit "hi"))); (assistant, Val (JStr apiErrorText))] /\
    isConnected (chatState w') = true /\
    isTyping (chatState w') = false.
Proof.
  apply (@sendMessage_failed_call_shows_one_apology
           asciiLower (liveWorld "hi") 104%N [105%N] (Responded (mkResponse 503 None)));
    try reflexivity.
  apply fails_status. reflexivity.
Defined.

(** C4, as the claim has it, fails.  A reply whose [message] carries no
    [content] does not fit the envelope, yet no apology is shown: the
    turn ends with an assistant bubble and an assistant entry whose
    content is [undefined].  And when the fetch rejects, the apology is
    shown but [chatState.messages] gains no assistant entry. *)
Lemma sendMessage_malformed_reply_no_apology :
  (exists w',
     run (sendMessage asciiLower (liveWorld "hi")) [replyWithoutContent]
     = Some (Returned tt, w') /\
     bubbles (chatMessages (page w'))
     = [(user, Val (JStr (JsString.lit "hi"))); (assistant, Undefined)] /\
     ~ In (assistant, Val (JStr apiErrorText)) (bubbles (chatMessages (page w'))) /\
     messages (chatState w')
     = [mkMessage user (Val (JStr (JsString.lit "hi"))); mkMessage assistant Undefined]) /\
  (exists w',
     run (sendMessage asciiLower (liveWorld "hi")) [Rejected] = Some (Returned tt, w') /\
     ~ In assistant (map role (messages (chatState w')))).
Proof.
  split.
  - eexists. split; [reflexivity|]. cbn. repeat split.
    intros [H | [H | []]]; discriminate.
  - eexists. split; [reflexivity|]. cbn.
    intros [H | []]; discriminate.
Qed.

(** C6, as the code has it.  When the visitor confirms, [clearChat]
    empties [chatState.messages], sends nothing (no health probe) and
    leaves [isConnected] as it was; when the visitor declines, it
    changes nothing. *)
Theorem clearChat_confirmed_empties_transcript (w : World) :
  (exists w',
     clearChat true w = Ret tt w' /\
     messages (chatState w') = [] /\
     isConnected (chatState w') = isConnected (chatState w) /\
     sent w' = sent w) /\
  clearChat false w = Ret tt w.
Proof.
  split; [|reflexivity].
  eexists. split; [reflexivity|]. cbn. repeat split.
Qed.

(** C6, as the claim has it, fails.  The visitor who answers the
    confirmation with Cancel keeps the transcript. *)
Lemma clearChat_declined_keeps_transcript :
  clearChat false chattedWorld = Ret tt chattedWorld /\
  messages (chatState chattedWorld) <> [].
Proof.
  split; [reflexivity | discriminate].
Qed.

Lemma checkAPIHealth_never_throws (w : World) : NeverThrows (checkAPIHealth w).
Proof.
  unfold checkAPIHealth, tryCatch, fetch, bind. cbn.
  constructor. intros o w1. destruct o as [|r]; cbn; [constructor|].
  destruct (ok r); cbn; [|constructor].
  constructor. intros [] w2. cbn.
  destruct (resp_json r) as [data|]; cbn; [|constructor].
  destruct (getProperty (Val data) (JsString.lit "model")) as [e|model]; cbn;
    [constructor|].
  destruct (templateOk model); cbn; constructor.
Qed.

Lemma checkAPIHealth_run (w : World) (o : FetchOutcome) :
  exists w',
    run (checkAPIHealth w) [o] = Some (Returned tt, w') /\
    isConnected (chatState w') = healthy o /\
    messages (chatState w') = messages (chatState w) /\
    sent w' = sent w ++ [GetHealth].
Proof.
  unfold checkAPIHealth, tryCatch, fetch, bind. cbn.
  destruct o as [|r]; cbn; [eexists; repeat split|].
  destruct (ok r); cbn; [|eexists; repeat split].
  destruct (resp_json r) as [data|]; cbn; [|eexists; repeat split].
  destruct data; cbn;
    try (eexists; split; [reflexivity|]; repeat split; fail).
  all: destruct (getProperty _ (JsString.lit "model")) as [e|model]; cbn;
    [eexists; repeat split|].
  all: destruct (templateOk model); cbn; eexists; repeat split.
Qed.

(** C3, as the code has it.  [checkAPIHealth] never throws.  It sends
    one probe and waits for the fetch alone, with no timer beside it:
    while the fetch does not settle it does not complete.  Once the fetch
    settles it returns with [isConnected] true exactly when the answer
    has a success status, a JSON body other than [null] and a [model]
    that the status line can print, and false otherwise (rejected fetch,
    other status, body not JSON). *)
Theorem checkAPIHealth_sets_mode (w : World) (o : FetchOutcome) :
  NeverThrows (checkAPIHealth w) /\
  parked (checkAPIHealth w) = Some (WaitFetch, withSent GetHealth w) /\
  run (checkAPIHealth w) [] = None /\
  (exists w',
     run (checkAPIHealth w) [o] = Some (Returned tt, w') /\
     isConnected (chatState w') = healthy o) /\
  healthy Rejected = false /\
  (forall r, ok r = false -> healthy (Responded r) = false) /\
  (forall r, resp_json r = None -> healthy (Responded r) = false) /\
  (forall r model,
     ok r = true ->
     resp_json r = Some (JObj [(JsString.lit "model", JStr model)]) ->
     healthy (Responded r) = true).
Proof.
  split; [apply checkAPIHealth_never_throws|].
  split; [reflexivity|]. split; [reflexivity|]. split.
  - destruct (checkAPIHealth_run w o) as [w' [R [C _]]]. exists w'. split; assumption.
  - split; [reflexivity|]. split; [|split].
    + intros r H. simpl. rewrite H. reflexivity.
    + intros r H. simpl. rewrite H. apply andb_false_r.
    + intros r model H J. simpl. rewrite H, J. reflexivity.
Qed.

(** C3, as the claim has it, fails.  A probe answered with a success
    status ends offline when the body is [null]; and a probe that is
    never answered leaves [checkAPIHealth] waiting on the fetch, no
    timeout having been set. *)
Lemma checkAPIHealth_success_status_ends_offline :
  (exists r, nullHealthReply = Responded r /\ ok r = true) /\
  (exists w',
     run (checkAPIHealth (demoWorld "")) [nullHealthReply] = Some (Returned tt, w') /\
     isConnected (chatState w') = false) /\
  run (checkAPIHealth (demoWorld "")) [] = None /\
  parked (checkAPIHealth (demoWorld ""))
  = Some (WaitFetch, withSent GetHealth (demoWorld "")).
Proof.
  split; [eexists; split; reflexivity|].
  split; [eexists; split; reflexivity|].
  split; reflexivity.
Qed.

Lemma demoKeyOf_firstMatch (lowerMessage : jsstring) :
  demoKeyOf lowerMessage = firstMatch demoCategories lowerMessage.
Proof.
  unfold demoKeyOf, demoCategories, firstMatch, existsb.
  rewrite !orb_false_r, orb_assoc. reflexivity.
Qed.

Lemma getDemoResponse_run
    (toLowerCase : jsstring -> jsstring) (text : jsstring) (w : World)
    (net : list FetchOutcome) :
  run (getDemoResponse toLowerCase text w) net
  = Some (Returned tt,
          withMessages
            (fun l => l ++ [mkMessage assistant (Val (JStr (demoReply toLowerCase text)))])
            (withNodes
               (fun l => l ++ [Bubble assistant (Val (JStr (demoReply toLowerCase text)))])
               w)).
Proof. reflexivity. Qed.

(** C5.  The demo reply is a function of the text alone: the text is
    lower-cased and matched against the keyword rows in their fixed
    order (skills and experience, then projects, then the assistant
    itself), the first row that matches wins and the default answers
    when none does.  [Tell me about your skills] falls in the skills
    row and [asdfgh] in the default. *)
Theorem demo_reply_first_match_wins (toLowerCase : jsstring -> jsstring) :
  AsciiCaseMapping toLowerCase ->
  (forall text,
     demoReply toLowerCase text
     = demoResponses (firstMatch demoCategories (toLowerCase text))) /\
  (forall text w net,
     run (getDemoResponse toLowerCase text w) net
     = Some (Returned tt,
             withMessages
               (fun l => l ++ [mkMessage assistant (Val (JStr (demoReply toLowerCase text)))])
               (withNodes
                  (fun l => l ++ [Bubble assistant (Val (JStr (demoReply toLowerCase text)))])
                  w))) /\
  demoKeyOf (toLowerCase (JsString.lit "Tell me about your skills")) = skills /\
  demoReply toLowerCase (JsString.lit "Tell me about your skills") = demoResponses skills /\
  demoKeyOf (toLowerCase (JsString.lit "asdfgh")) = default /\
  demoReply toLowerCase (JsString.lit "asdfgh") = demoResponses default.
Proof.
  intros basic. split; [|split].
  - intros text. unfold demoReply. rewrite demoKeyOf_firstMatch. reflexivity.
  - intros text w net. apply getDemoResponse_run.
  - unfold demoReply.
    rewrite (basic (JsString.lit "Tell me about your skills") eq_refl).
    rewrite (basic (JsString.lit "asdfgh") eq_refl).
    repeat split.
Qed.

Lemma demo_reply_first_match_wins_witness :
  demoKeyOf (asciiLower (JsString.lit "Tell me about your skills")) = skills /\
  demoKeyOf (asciiLower (JsString.lit "asdfgh")) = default.
Proof.
  destruct (demo_reply_first_match_wins (toLowerCase := asciiLower) (fun s _ => eq_refl))
    as [_ [_ [S [_ [D _]]]]].
  split; assumption.
Defined.

Lemma includesLit_Contains (s : jsstring) (kw : string) :
  includesLit s kw = true <-> Contains s (JsString.lit kw).
Proof. apply includes_spec. Qed.

Lemma includesLit_not_Contains (s : jsstring) (kw : string) :
  ~ Contains s (JsString.lit kw) -> includesLit s kw = false.
Proof.
  intros H. destruct (includesLit s kw) eqn:E; [|reflexivity].
  exfalso. apply H. apply includesLit_Contains. exact E.
Qed.

(** C10.  The keywords are matched as substrings of the lower-cased
    text, not as words: a text whose lower-cased form contains [ai]
    anywhere, and none of [skill], [experience] and [project], gets the
    reply about the assistant, which is not the default reply. *)
Theorem demo_reply_matches_substrings
    (toLowerCase : jsstring -> jsstring) (text : jsstring) :
  Contains (toLowerCase text) (JsString.lit "ai") ->
  ~ Contains (toLowerCase text) (JsString.lit "skill") ->
  ~ Contains (toLowerCase text) (JsString.lit "experience") ->
  ~ Contains (toLowerCase text) (JsString.lit "project") ->
  demoKeyOf (toLowerCase text) = ai /\
  demoReply toLowerCase text = demoResponses ai /\
  demoResponses ai <> demoResponses default.
Proof.
  intros Hai Hs He Hp.
  apply includesLit_Contains in Hai.
  apply includesLit_not_Contains in Hs, He, Hp.
  assert (K : demoKeyOf (toLowerCase text) = ai).
  { unfold demoKeyOf. rewrite Hs, He, Hp, Hai. reflexivity. }
  split; [exact K|]. split.
  - unfold demoReply. rewrite K. reflexivity.
  - discriminate.
Qed.

Lemma demo_reply_matches_substrings_witness :
  demoKeyOf (asciiLower (JsString.lit "Please maintain it")) = ai /\
  demoReply asciiLower (JsString.lit "Please maintain it") = demoResponses ai /\
  demoResponses ai <> demoResponses default.
Proof.
  apply (@demo_reply_matches_substrings asciiLower (JsString.lit "Please maintain it")).
  - exists (JsString.lit "please m"), (JsString.lit "ntain it"). reflexivity.
  - intros H. apply includesLit_Contains in H. vm_compute in H. discriminate H.
  - intros H. apply includesLit_Contains in H. vm_compute in H. discriminate H.
  - intros H. apply includesLit_Contains in H. vm_compute in H. discriminate H.
Defined.

(** ** The Gateway of the specification *)

Lemma freshId_injective (h h' : Gateway.Host) :
  fst (Gateway.freshId h) = fst (Gateway.freshId h') ->
  Gateway.issued h = Gateway.issued h'.
Proof.
  unfold Gateway.freshId. simpl. intros H.
  injection H as H.
  apply Unsigned.to_uint_inj.
  assert (E : forall d, NilEmpty.uint_of_string (NilEmpty.string_of_uint d) = Some d)
    by apply NilEmpty.usu.
  pose proof (E (Nat.to_uint (Gateway.issued h))) as E1.
  rewrite H, E in E1. injection E1 as E1. symmetry. exact E1.
Qed.

Section GatewayFacts.

Variable defaultModel : string.
Variable estimate : string -> N.
Variable runtime : Gateway.NativeCall -> Gateway.RuntimeOutcome.

Let serve := Gateway.chatCompletion defaultModel estimate runtime.
Let ids := Gateway.idsOf defaultModel estimate runtime.

Lemma chatCompletion_host (r : Gateway.ChatCompletionRequest) (h : Gateway.Host) :
  match serve r h with
  | (inr resp, h') =>
      Gateway.id resp = fst (Gateway.freshId h) /\
      Gateway.issued h' = S (Gateway.issued h)
  | (inl _, h') => h' = h
  end.
Proof.
  unfold serve, Gateway.chatCompletion.
  destruct (Gateway.validRequest r); [|reflexivity].
  destruct (runtime (Gateway.toNative defaultModel r)); simpl; auto.
Qed.

Lemma idsOf_later (rs : list Gateway.ChatCompletionRequest) :
  forall h i, In i (ids rs h) ->
    exists h0, Gateway.issued h <= Gateway.issued h0 /\ i = fst (Gateway.freshId h0).
Proof.
  induction rs as [|r rs IH]; intros h i; simpl; [intros []|].
  pose proof (chatCompletion_host r h) as S.
  fold serve. destruct (serve r h) as [[e|resp] h']; fold ids.
  - subst h'. apply IH.
  - destruct S as [I N]. intros [<- | H].
    + exists h. split; [lia | exact I].
    + destruct (IH h' i H) as [h0 [L E]]. exists h0. split; [lia | exact E].
Qed.

Lemma idsOf_NoDup (rs : list Gateway.ChatCompletionRequest) :
  forall h, NoDup (ids rs h).
Proof.
  induction rs as [|r rs IH]; intros h; simpl; [constructor|].
  pose proof (chatCompletion_host r h) as S.
  fold serve. destruct (serve r h) as [[e|resp] h'] eqn:E; fold ids.
  - apply IH.
  - destruct S as [I N]. constructor; [|apply IH].
    intros H. apply idsOf_later in H. destruct H as [h0 [L E0]].
    rewrite I in E0. apply freshId_injective in E0. lia.
Qed.

End GatewayFacts.

(** C8 (on the Gateway as the specification describes it).  A valid
    request that the runtime answers with a text gets a response whose
    [total_tokens] is the sum of [prompt_tokens] and
    [completion_tokens], whose message is the assistant's with the
    runtime's text as content, and whose [id] is fresh: the next
    response has another, and no [id] comes twice in any run of
    calls. *)
Theorem gateway_round_trip
    (defaultModel : string) (estimate : string -> N)
    (runtime : Gateway.NativeCall -> Gateway.RuntimeOutcome)
    (r : Gateway.ChatCompletionRequest) (h : Gateway.Host)
    (text : string) (counts : option (N * N)) :
  Gateway.validRequest r = true ->
  runtime (Gateway.toNative defaultModel r) = Gateway.Generated text counts ->
  exists resp h',
    Gateway.chatCompletion defaultModel estimate runtime r h = (inr resp, h') /\
    Gateway.total_tokens (Gateway.usage resp)
    = (Gateway.prompt_tokens (Gateway.usage resp)
       + Gateway.completion_tokens (Gateway.usage resp))%N /\
    Gateway.message resp = Gateway.mkMessage "assistant" text /\
    (forall r2 resp2 h2,
       Gateway.chatCompletion defaultModel estimate runtime r2 h' = (inr resp2, h2) ->
       Gateway.id resp2 <> Gateway.id resp) /\
    (forall rs h0, NoDup (Gateway.idsOf defaultModel estimate runtime rs h0)).
Proof.
  intros valid reply.
  assert (E : Gateway.chatCompletion defaultModel estimate runtime r h
              = (inr (Gateway.mkResponse (fst (Gateway.freshId h)) defaultModel
                        (Gateway.now h) (Gateway.mkMessage "assistant" text)
                        (Gateway.usageOf estimate r text counts)),
                 snd (Gateway.freshId h))).
  { unfold Gateway.chatCompletion. rewrite valid, reply. reflexivity. }
  eexists. eexists. split; [exact E|].
  split; [|split; [reflexivity|split]].
  - unfold Gateway.usageOf. destruct counts as [[p c]|]; reflexivity.
  - intros r2 resp2 h2 E2.
    pose proof (chatCompletion_host defaultModel estimate runtime r2
                  (snd (Gateway.freshId h))) as S2.
    rewrite E2 in S2. destruct S2 as [I2 _].
    intros C. rewrite I2 in C. cbn [Gateway.id] in C.
    apply freshId_injective in C. simpl in C. lia.
  - intros rs h0. apply idsOf_NoDup.
Qed.

Lemma gateway_round_trip_witness :
  exists resp h',
    Gateway.chatCompletion "llama2" Gateway.wordCount Gateway.helloRuntime
      Gateway.hiRequest (Gateway.mkHost 1707489482 0) = (inr resp, h') /\
    Gateway.total_tokens (Gateway.usage resp)
    = (Gateway.prompt_tokens (Gateway.usage resp)
       + Gateway.completion_tokens (Gateway.usage resp))%N /\
    Gateway.message resp = Gateway.mkMessage "assistant" "hello" /\
    (forall r2 resp2 h2,
       Gateway.chatCompletion "llama2" Gateway.wordCount Gateway.helloRuntime r2 h'
       = (inr resp2, h2) ->
       Gateway.id resp2 <> Gateway.id resp) /\
    (forall rs h0,
       NoDup (Gateway.idsOf "llama2" Gateway.wordCount Gateway.helloRuntime rs h0)).
Proof.
  apply (@gateway_round_trip "llama2" Gateway.wordCount Gateway.helloRuntime
           Gateway.hiRequest (Gateway.mkHost 1707489482 0) "hello" None);
    reflexivity.
Defined.

(** The usage of the example response in the README adds up. *)
Lemma readme_usage_adds_up :
  Gateway.total_tokens Gateway.readmeUsage
  = (Gateway.prompt_tokens Gateway.readmeUsage
     + Gateway.completion_tokens Gateway.readmeUsage)%N.
Proof. reflexivity. Qed.

Arguments JsString.trim : simpl never.

(** ** The shape of the handlers *)

Lemma SendDone_reply (w : World) (v : jsval) :
  SendDone w
    (afterHide
       (withMessages (fun l => l ++ [mkMessage assistant v])
          (withNodes (fun l => l ++ [Bubble assistant v]) w))).
Proof.
  unfold SendDone. cbn. repeat split.
  exists v. split; [reflexivity | right; reflexivity].
Qed.

Lemma SendDone_apology (w : World) :
  SendDone w
    (afterHide
       (withNodes (fun l => l ++ [Bubble assistant (Val (JStr apiErrorText))]) w)).
Proof.
  unfold SendDone. cbn. repeat split.
  exists (Val (JStr apiErrorText)). split; [reflexivity | left; reflexivity].
Qed.

Section Shapes.

Variable toLowerCase : jsstring -> jsstring.

Lemma sendMessage_busy (w : World) :
  isTyping (chatState w) = true -> sendMessage toLowerCase w = Ret tt w.
Proof.
  intros H. unfold sendMessage, bind, gets. cbn. rewrite H.
  destruct (JsString.trim (chatInput_value (page w))); reflexivity.
Qed.

Lemma sendMessage_blank (w : World) :
  JsString.trim (chatInput_value (page w)) = [] -> sendMessage toLowerCase w = Ret tt w.
Proof.
  intros H. unfold sendMessage, bind, gets. cbn. rewrite H. reflexivity.
Qed.

Lemma sendMessage_live_shape (w : World) (c : N) (m : jsstring) :
  JsString.trim (chatInput_value (page w)) = c :: m ->
  isTyping (chatState w) = false ->
  isConnected (chatState w) = true ->
  exists k,
    sendMessage toLowerCase w
    = Suspend AwaitFetch
        (withSent (PostChat (chatBody (messages (chatState (afterSubmit (c :: m) w)))))
           (afterSubmit (c :: m) w)) k /\
    (forall o, Resumed SendDone (k o)).
Proof.
  intros typed idle live. unfold sendMessage, bind, gets. cbn.
  rewrite typed, idle. cbn. rewrite live. cbn.
  eexists. split; [reflexivity|].
  - intros o w'. destruct o as [|r]; cbn.
    + left. eexists. split; [reflexivity | apply SendDone_apology].
    + destruct (ok r); cbn.
      * right. eexists. split; [reflexivity|].
        intros [] w2. cbn.
        destruct (resp_json r) as [data|]; cbn;
          [|eexists; split; [reflexivity | apply SendDone_apology]].
        destruct (getProperty (Val data) (JsString.lit "message")) as [e|msg]; cbn;
          [eexists; split; [reflexivity | apply SendDone_apology]|].
        destruct (getProperty msg (JsString.lit "content")) as [e|v]; cbn;
          [eexists; split; [reflexivity | apply SendDone_apology]|].
        unfold addMessage. destruct (templateOk v); cbn;
          eexists; (split; [reflexivity|]);
          [apply SendDone_reply | apply SendDone_apology].
      * left. eexists. split; [reflexivity | apply SendDone_apology].
Qed.

Lemma sendMessage_demo_shape (w : World) (c : N) (m : jsstring) :
  JsString.trim (chatInput_value (page w)) = c :: m ->
  isTyping (chatState w) = false ->
  isConnected (chatState w) = false ->
  exists k,
    sendMessage toLowerCase w = Suspend (AwaitTimer 1000) (afterSubmit (c :: m) w) k /\
    Final SendDone k.
Proof.
  intros typed idle demo. unfold sendMessage, bind, gets. cbn.
  rewrite typed, idle. cbn. rewrite demo. cbn.
  eexists. split; [reflexivity|].
  intros [] w'. cbn. eexists. split; [reflexivity | apply SendDone_reply].
Qed.

Lemma prompt_then_send (prompt : jsstring) (w : World) :
  (modify (withInput prompt) ;; sendMessage toLowerCase) w
  = sendMessage toLowerCase (withInput prompt w).
Proof. reflexivity. Qed.

End Shapes.

Lemma bubbles_insertAfterWelcome (n : Node) (l : list Node) :
  (forall r c, n <> Bubble r c) ->
  bubbles (insertAfterWelcome n l) = bubbles l.
Proof.
  intros Hn. induction l as [|x l IH]; simpl; [reflexivity|].
  destruct x; simpl; rewrite ?IH; try reflexivity.
  destruct n; try reflexivity. exfalso. apply (Hn who text). reflexivity.
Qed.

Lemma indicators_insertAfterWelcome (l : list Node) :
  indicators (insertAfterWelcome DemoModeMessage l) = indicators l.
Proof.
  unfold indicators. induction l as [|x l IH]; simpl; [reflexivity|].
  destruct x; simpl; rewrite ?IH; reflexivity.
Qed.

Lemma StartupDone_offline (w : World) :
  StartupDone w
    (withNodes (insertAfterWelcome DemoModeMessage)
       (withStatus (offline, ApiOffline) (withConnected false w))).
Proof.
  unfold StartupDone. cbn. repeat split.
  - apply bubbles_insertAfterWelcome. discriminate.
  - apply indicators_insertAfterWelcome.
Qed.

Lemma StartupDone_offline_after_online (w : World) :
  StartupDone w
    (withNodes (insertAfterWelcome DemoModeMessage)
       (withStatus (offline, ApiOffline) (withConnected false (withConnected true w)))).
Proof.
  unfold StartupDone. cbn. repeat split.
  - apply bubbles_insertAfterWelcome. discriminate.
  - apply indicators_insertAfterWelcome.
Qed.

Lemma StartupDone_online (w : World) (model : jsval) :
  StartupDone w (withStatus (online, ConnectedTo model) (withConnected true w)).
Proof. unfold StartupDone. cbn. repeat split. Qed.

Lemma initializeChat_shape (w : World) :
  exists k,
    initializeChat w = Suspend AwaitFetch (withSent GetHealth w) k /\
    (forall o, Resumed StartupDone (k o)).
Proof.
  unfold initializeChat, checkAPIHealth, tryCatch, fetch, bind. cbn.
  eexists. split; [reflexivity|].
  intros o w'. destruct o as [|r]; cbn.
  - left. eexists. split; [reflexivity | apply StartupDone_offline].
  - destruct (ok r); cbn.
    + right. eexists. split; [reflexivity|].
      intros [] w2. cbn.
      destruct (resp_json r) as [data|]; cbn;
        [|eexists; split; [reflexivity | apply StartupDone_offline]].
      destruct (getProperty (Val data) (JsString.lit "model")) as [e|model]; cbn;
        [eexists; split; [reflexivity | apply StartupDone_offline_after_online]|].
      destruct (templateOk model); cbn; eexists; (split; [reflexivity|]);
        [apply StartupDone_online | apply StartupDone_offline_after_online].
    + left. eexists. split; [reflexivity | apply StartupDone_offline].
Qed.

(** ** Lists of entries *)

Lemma endsWithAssistant_app (l : list Message) (x : Message) :
  endsWithAssistant (l ++ [x]) = isAssistant x.
Proof.
  induction l as [|a l IH]; [reflexivity|].
  simpl. destruct (l ++ [x]) eqn:E; [destruct l; discriminate | exact IH].
Qed.

Lemma noAssistantTwice_app (l : list Message) (x : Message) :
  noAssistantTwice (l ++ [x])
  = noAssistantTwice l && negb (endsWithAssistant l && isAssistant x).
Proof.
  induction l as [|a l IH]; [reflexivity|].
  destruct l as [|b l].
  - simpl. rewrite andb_true_r. reflexivity.
  - change (noAssistantTwice ((a :: b :: l) ++ [x]))
      with (negb (isAssistant a && isAssistant b) && noAssistantTwice ((b :: l) ++ [x])).
    rewrite IH.
    change (noAssistantTwice (a :: b :: l))
      with (negb (isAssistant a && isAssistant b) && noAssistantTwice (b :: l)).
    change (endsWithAssistant (a :: b :: l)) with (endsWithAssistant (b :: l)).
    rewrite andb_assoc. reflexivity.
Qed.

(** ** The invariant of the page *)

Lemma resume_Resumed (done : World -> World -> Prop) (X : Type) (p : Pending X)
    (k : X -> World -> Task unit) (a : Answer) (t : World -> Task unit) :
  Waits done p k -> resume p k a = Some t -> Resumed done t.
Proof.
  destruct p; simpl; intros W R; destruct a; try discriminate;
    injection R as <-.
  - apply W.
  - intros w. left. apply W.
  - intros w. left. apply W.
Qed.

Lemma Sound_boot (p : Page) : Sound (boot p).
Proof.
  unfold boot.
  destruct (initializeChat_shape (mkWorld initialChatState p [])) as [k [E W]].
  rewrite E. cbn. constructor; cbn; try reflexivity; try discriminate.
  - eapply phase_startup with (p := AwaitFetch) (k := k); cbn;
      [reflexivity | reflexivity | exact W | split; reflexivity].
  - exists []. split; [reflexivity | constructor].
Qed.

Section Invariant.

Variable toLowerCase : jsstring -> jsstring.

(** An event that changes neither the chat state, nor what was sent,
    nor the send button. *)
Lemma Sound_frame (b : Browser) (w' : World) :
  Sound b ->
  chatState w' = chatState (world b) ->
  sent w' = sent (world b) ->
  sendBtn_disabled (page w') = sendBtn_disabled (page (world b)) ->
  Sound (mkBrowser w' (listening b) (jobs b) (unhandled b)).
Proof.
  intros [P U S D T O B] Hc Hs Hb.
  constructor; cbn; rewrite ?Hc, ?Hs, ?Hb; try assumption.
  destruct P as [X p k L J W [Pc Ps] | L J Ty | X p k L J W Ty].
  - eapply phase_startup; cbn; eauto. split; congruence.
  - apply phase_idle; cbn; congruence.
  - eapply phase_flight; cbn; eauto. congruence.
Qed.

Lemma Sound_send (b : Browser) (w' : World) :
  Sound b ->
  listening b = true ->
  chatState w' = chatState (world b) ->
  sent w' = sent (world b) ->
  sendBtn_disabled (page w') = sendBtn_disabled (page (world b)) ->
  Sound (dispatch Listener (sendMessage toLowerCase w') b).
Proof.
  intros HS L Hc Hs Hb.
  assert (F : Sound (mkBrowser w' (listening b) (jobs b) (unhandled b)))
    by (apply Sound_frame; assumption).
  destruct HS as [P U S D T O B].
  destruct (isTyping (chatState w')) eqn:Ty.
  { rewrite sendMessage_busy by exact Ty. cbn. rewrite orb_false_r. exact F. }
  destruct (JsString.trim (chatInput_value (page w'))) as [|c m] eqn:Tr.
  { rewrite sendMessage_blank by exact Tr. cbn. rewrite orb_false_r. exact F. }
  assert (J : jobs b = []).
  { destruct P as [X p k L' _ _ _ | _ J _ | X p k _ _ _ Ty']; congruence. }
  destruct S as [chats [Sc Sf]].
  destruct (isConnected (chatState w')) eqn:Co.
  - destruct (sendMessage_live_shape toLowerCase w' Tr Ty Co) as [k [E W]].
    rewrite E. cbn. rewrite J. cbn.
    constructor; cbn.
    + eapply phase_flight with (p := AwaitFetch) (k := k); cbn;
        [exact L | reflexivity | exact W | reflexivity].
    + exact U.
    + exists (chats ++ [PostChat (chatBody
                 (messages (chatState w') ++ [mkMessage user (Val (JStr (c :: m)))]))]).
      split; [rewrite Hs, Sc; reflexivity|].
      apply Forall_app. split; [exact Sf|].
      constructor; [|constructor]. eexists. eexists. reflexivity.
    + intros C. congruence.
    + rewrite noAssistantTwice_app. rewrite Hc, T. cbn. rewrite andb_false_r. reflexivity.
    + intros _. apply endsWithAssistant_app.
    + reflexivity.
  - destruct (sendMessage_demo_shape toLowerCase w' Tr Ty Co) as [k [E W]].
    rewrite E. cbn. rewrite J. cbn.
    constructor; cbn.
    + eapply phase_flight with (p := AwaitTimer 1000) (k := k); cbn;
        [exact L | reflexivity | exact W | reflexivity].
    + exact U.
    + exists chats. split; [rewrite Hs; exact Sc | exact Sf].
    + intros _. rewrite Hs. apply D. rewrite <- Hc. exact Co.
    + rewrite noAssistantTwice_app. rewrite Hc, T. cbn. rewrite andb_false_r. reflexivity.
    + intros _. apply endsWithAssistant_app.
    + reflexivity.
Qed.

Lemma Sound_clear (b : Browser) (confirmed : bool) :
  Sound b ->
  listening b = true ->
  Sound (dispatch Listener (clearChat confirmed (world b)) b).
Proof.
  intros HS L. destruct confirmed; cbn; rewrite orb_false_r.
  - destruct HS as [P U S D T O B].
    constructor; cbn; try assumption; try reflexivity.
    destruct P as [X p k L' _ _ _ | _ J Ty | X p k _ J W Ty].
    + congruence.
    + apply phase_idle; cbn; assumption.
    + eapply phase_flight; cbn; eauto.
  - destruct b. exact HS.
Qed.

Lemma Sound_settle (b : Browser) (i : nat) (a : Answer) :
  Sound b -> Sound (fire toLowerCase (Settle i a) b).
Proof.
  intros HS. pose proof HS as [P U S D T O B]. cbn.
  destruct P as [X p k L J W [Pc Ps] | L J Ty | X p k L J W Ty]; rewrite J.
  - destruct i as [|i]; [|destruct i; exact HS]. cbn.
    destruct (resume p k a) as [t|] eqn:R; [|exact HS].
    destruct (@resume_Resumed _ _ _ _ _ _ W R (world b)) as [[w' [E Dn]] | [k2 [E F]]];
      rewrite E; cbn.
    + destruct Dn as [Dm [Dt [Ds [_ [Db _]]]]].
      rewrite Pc in Dm, Dt. cbn in Dm, Dt.
      constructor; cbn; try assumption; rewrite ?Dm, ?Dt, ?Ds; try reflexivity;
        try discriminate; try assumption.
      * apply phase_idle; cbn; [apply orb_true_r | reflexivity | exact Dt].
      * intros _. exact Ps.
    + constructor; cbn; try assumption.
      eapply phase_startup with (p := AwaitJson) (k := k2); cbn;
        [exact L | reflexivity | exact F | split; assumption].
  - destruct i; exact HS.
  - destruct i as [|i]; [|destruct i; exact HS]. cbn.
    destruct (resume p k a) as [t|] eqn:R; [|exact HS].
    destruct (@resume_Resumed _ _ _ _ _ _ W R (world b)) as [[w' [E Dn]] | [k2 [E F]]];
      rewrite E; cbn.
    + destruct Dn as [Dt [Db [Dc [Ds [_ [v [_ Dm]]]]]]].
      constructor; cbn; rewrite ?Dt, ?Ds, ?Dc; try assumption; try discriminate.
      * apply phase_idle; cbn; [rewrite L; reflexivity | reflexivity | exact Dt].
      * destruct Dm as [-> | ->]; [exact T|].
        rewrite noAssistantTwice_app, T, (O Ty). reflexivity.
    + constructor; cbn; try assumption.
      eapply phase_flight with (p := AwaitJson) (k := k2); cbn;
        [exact L | reflexivity | exact F | exact Ty].
Qed.

Lemma Sound_fire (e : Event) (b : Browser) :
  Sound b -> Sound (fire toLowerCase e b).
Proof.
  intros HS. destruct e as [value | | key shiftKey | prompt | confirmed | i a].
  - cbn. apply Sound_frame; [exact HS | reflexivity ..].
  - cbn. destruct (listening b) eqn:L; cbn; [|exact HS].
    destruct (sendBtn_disabled (page (world b))); cbn; [exact HS|].
    apply Sound_send; [exact HS | exact L | reflexivity ..].
  - cbn. destruct (listening b) eqn:L; cbn; [|exact HS].
    destruct (JsString.eqb key (JsString.lit "Enter")); cbn; [|exact HS].
    destruct shiftKey; cbn; [exact HS|].
    apply Sound_send; [exact HS | exact L | reflexivity ..].
  - unfold fire. destruct (listening b) eqn:L; [|exact HS].
    rewrite prompt_then_send.
    apply Sound_send; [exact HS | exact L | reflexivity ..].
  - cbn. destruct (listening b) eqn:L; [|exact HS].
    apply Sound_clear; assumption.
  - apply Sound_settle. exact HS.
Qed.

Lemma Sound_fireAll (es : list Event) :
  forall b, Sound b -> Sound (fireAll toLowerCase es b).
Proof.
  induction es as [|e es IH]; intros b HS; [exact HS|].
  apply IH. apply Sound_fire. exact HS.
Qed.

Lemma Sound_reachable (p : Page) (es : list Event) :
  Sound (fireAll toLowerCase es (boot p)).
Proof. apply Sound_fireAll. apply Sound_boot. Qed.

End Invariant.

Lemma noAssistantTwice_spec (l : list Message) :
  noAssistantTwice l = true ->
  forall pre a b post,
    l = pre ++ a :: b :: post -> ~ (role a = assistant /\ role b = assistant).
Proof.
  induction l as [|x l IH]; intros H pre a b post E.
  - destruct pre; discriminate.
  - destruct l as [|y l]; [destruct pre as [|? [|? ?]]; discriminate|].
    change (negb (isAssistant x && isAssistant y) && noAssistantTwice (y :: l) = true) in H.
    apply andb_prop in H. destruct H as [H1 H2].
    destruct pre as [|z pre].
    + injection E as -> -> _. intros [Ra Rb].
      unfold isAssistant in H1. rewrite Ra, Rb in H1. discriminate.
    + injection E as _ E. apply (IH H2 pre a b post E).
Qed.

Lemma settle_drain (toLowerCase : jsstring -> jsstring)
    (done : World -> World -> Prop) (b : Browser) (j : Job) (X : Type)
    (p : Pending X) (k : X -> World -> Task unit) (o : FetchOutcome) :
  jobs b = [Park j p k] ->
  Waits done p k ->
  exists w',
    fireAll toLowerCase (drain o) b
    = mkBrowser w' (listening b || isStartup j) [] (unhandled b) /\
    done (world b) w'.
Proof.
  destruct b as [w l js u]. cbn. intros -> W.
  unfold drain, fireAll. destruct p; cbn in W |- *.
  - destruct (W o w) as [[w' [E D]] | [k2 [E F]]]; rewrite E; cbn.
    + exists w'. split; [reflexivity | exact D].
    + destruct (F tt w) as [w' [E2 D]]. rewrite E2. cbn.
      exists w'. split; [reflexivity | exact D].
  - destruct (W tt w) as [w' [E D]]. rewrite E. cbn.
    exists w'. split; [reflexivity | exact D].
  - destruct (W tt w) as [w' [E D]]. rewrite E. cbn.
    exists w'. split; [reflexivity | exact D].
Qed.

Section Always.

Variable toLowerCase : jsstring -> jsstring.

Lemma fire_keeps_mode (e : Event) (b : Browser) :
  Sound b ->
  listening b = true ->
  isConnected (chatState (world (fire toLowerCase e b)))
  = isConnected (chatState (world b)) /\
  listening (fire toLowerCase e b) = true.
Proof.
  intros HS L.
  assert (Send : forall w',
             chatState w' = chatState (world b) ->
             isConnected (chatState (world (dispatch Listener (sendMessage toLowerCase w') b)))
             = isConnected (chatState (world b)) /\
             listening (dispatch Listener (sendMessage toLowerCase w') b) = true).
  { intros w' Hc.
    destruct (isTyping (chatState w')) eqn:Ty.
    { rewrite sendMessage_busy by exact Ty. cbn. rewrite Hc, L. split; reflexivity. }
    destruct (JsString.trim (chatInput_value (page w'))) as [|c m] eqn:Tr.
    { rewrite sendMessage_blank by exact Tr. cbn. rewrite Hc, L. split; reflexivity. }
    destruct (isConnected (chatState w')) eqn:Co.
    - destruct (sendMessage_live_shape toLowerCase w' Tr Ty Co) as [k [E _]].
      rewrite E. cbn. rewrite <- Hc, Co. split; [reflexivity | exact L].
    - destruct (sendMessage_demo_shape toLowerCase w' Tr Ty Co) as [k [E _]].
      rewrite E. cbn. rewrite <- Hc, Co. split; [reflexivity | exact L]. }
  destruct e as [value | | key shiftKey | prompt | confirmed | i a].
  - cbn. split; [reflexivity | exact L].
  - cbn. rewrite L. cbn.
    destruct (sendBtn_disabled (page (world b))); cbn; [split; [reflexivity | exact L]|].
    apply Send. reflexivity.
  - cbn. rewrite L. cbn.
    destruct (JsString.eqb key (JsString.lit "Enter")); cbn;
      [|split; [reflexivity | exact L]].
    destruct shiftKey; cbn; [split; [reflexivity | exact L]|].
    apply Send. reflexivity.
  - unfold fire. rewrite L. rewrite prompt_then_send. apply Send. reflexivity.
  - cbn. rewrite L. destruct confirmed; cbn; rewrite L; split; reflexivity.
  - destruct HS as [P _ _ _ _ _ _]. cbn.
    destruct P as [X p k L' _ _ _ | _ J _ | X p k _ J W _]; [congruence | |]; rewrite J.
    + destruct i; cbn; split; (reflexivity || exact L).
    + destruct i as [|i]; [|destruct i; cbn; split; (reflexivity || exact L)]. cbn.
      destruct (resume p k a) as [t|] eqn:R; [|split; [reflexivity | exact L]].
      destruct (@resume_Resumed _ _ _ _ _ _ W R (world b)) as [[w' [E Dn]] | [k2 [E F]]];
        rewrite E; cbn.
      * destruct Dn as [_ [_ [Dc _]]]. rewrite L. split; [exact Dc | reflexivity].
      * split; [reflexivity | exact L].
Qed.

Lemma fireAll_keeps_mode (es : list Event) :
  forall b, Sound b -> listening b = true ->
    isConnected (chatState (world (fireAll toLowerCase es b)))
    = isConnected (chatState (world b)) /\
    listening (fireAll toLowerCase es b) = true.
Proof.
  induction es as [|e es IH]; intros b HS L; [split; [reflexivity | exact L]|].
  destruct (fire_keeps_mode e HS L) as [C L'].
  destruct (IH (fire toLowerCase e b) (Sound_fire toLowerCase e HS) L') as [C' L''].
  change (fireAll toLowerCase (e :: es) b)
    with (fireAll toLowerCase es (fire toLowerCase e b)).
  split; [rewrite C'; exact C | exact L''].
Qed.

Lemma fire_unanswered (e : Event) (b : Browser) :
  listening b = false -> isSettle e = false ->
  listening (fire toLowerCase e b) = false /\
  (isInput e = false -> fire toLowerCase e b = b).
Proof.
  intros L S. destruct e; try discriminate; cbn; rewrite ?L; cbn;
    (split; [reflexivity || exact L | intros I; reflexivity || discriminate]).
Qed.

End Always.

Lemma indicators_app (l l' : list Node) :
  indicators (l ++ l') = indicators l + indicators l'.
Proof. unfold indicators. rewrite filter_app, length_app. reflexivity. Qed.

Lemma indicators_removeFirst_welcome (l : list Node) :
  indicators (removeFirst isWelcome l) = indicators l.
Proof.
  unfold indicators. induction l as [|x l IH]; simpl; [reflexivity|].
  destruct x; simpl; rewrite ?IH; reflexivity.
Qed.

Lemma indicators_removeFirst (l : list Node) :
  indicators (removeFirst isTypingIndicator l) = pred (indicators l).
Proof.
  unfold indicators. induction l as [|x l IH]; simpl; [reflexivity|].
  destruct x; simpl; try exact IH. reflexivity.
Qed.

Section TidyPage.

Variable toLowerCase : jsstring -> jsstring.

Lemma Tidy_send (b : Browser) (w' : World) :
  Tidy b ->
  chatState w' = chatState (world b) ->
  chatMessages (page w') = chatMessages (page (world b)) ->
  Tidy (dispatch Listener (sendMessage toLowerCase w') b).
Proof.
  unfold Tidy. intros T Hc Hn.
  destruct (isTyping (chatState w')) eqn:Ty.
  { rewrite sendMessage_busy by exact Ty. cbn. rewrite Hc, Hn. exact T. }
  destruct (JsString.trim (chatInput_value (page w'))) as [|c m] eqn:Tr.
  { rewrite sendMessage_blank by exact Tr. cbn. rewrite Hc, Hn. exact T. }
  rewrite <- Hc, Ty, <- Hn in T.
  assert (Z : indicators
                (((removeFirst isWelcome (chatMessages (page w')))
                  ++ [Bubble user (Val (JStr (c :: m)))]) ++ [TypingIndicator]) <= 1).
  { rewrite !indicators_app, indicators_removeFirst_welcome. cbn. lia. }
  destruct (isConnected (chatState w')) eqn:Co.
  - destruct (sendMessage_live_shape toLowerCase w' Tr Ty Co) as [k [E _]].
    rewrite E. cbn. exact Z.
  - destruct (sendMessage_demo_shape toLowerCase w' Tr Ty Co) as [k [E _]].
    rewrite E. cbn. exact Z.
Qed.

Lemma Tidy_fire (e : Event) (b : Browser) :
  Sound b -> Tidy b -> Tidy (fire toLowerCase e b).
Proof.
  intros HS T. destruct e as [value | | key shiftKey | prompt | confirmed | i a].
  - exact T.
  - cbn. destruct (listening b && negb (sendBtn_disabled (page (world b))));
      [apply Tidy_send; [exact T | reflexivity ..] | exact T].
  - cbn. destruct (listening b && JsString.eqb key (JsString.lit "Enter") && negb shiftKey);
      [apply Tidy_send; [exact T | reflexivity ..] | exact T].
  - unfold fire. destruct (listening b); [|exact T].
    rewrite prompt_then_send. apply Tidy_send; [exact T | reflexivity ..].
  - cbn. destruct (listening b); [|exact T].
    destruct confirmed; cbn; [|exact T].
    unfold Tidy. cbn. lia.
  - destruct HS as [P _ _ _ _ _ _]. cbn. unfold Tidy in *.
    destruct P as [X p k _ J W [Pc _] | _ J _ | X p k _ J W Ty]; rewrite J.
    + destruct i as [|i]; [|destruct i; exact T]. cbn.
      destruct (resume p k a) as [t|] eqn:R; [|exact T].
      destruct (@resume_Resumed _ _ _ _ _ _ W R (world b)) as [[w' [E Dn]] | [k2 [E F]]];
        rewrite E; cbn; [|exact T].
      destruct Dn as [_ [Dt [_ [_ [_ [_ Di]]]]]]. rewrite Dt, Di. exact T.
    + destruct i; exact T.
    + destruct i as [|i]; [|destruct i; exact T]. cbn.
      destruct (resume p k a) as [t|] eqn:R; [|exact T].
      destruct (@resume_Resumed _ _ _ _ _ _ W R (world b)) as [[w' [E Dn]] | [k2 [E F]]];
        rewrite E; cbn; [|exact T].
      destruct Dn as [Dt [_ [_ [_ [_ [v [Dn _]]]]]]].
      rewrite Dt, Dn, indicators_removeFirst, indicators_app. rewrite Ty in T.
      cbn. lia.
Qed.

Lemma Tidy_fireAll (es : list Event) :
  forall b, Sound b -> Tidy b -> Tidy (fireAll toLowerCase es b).
Proof.
  induction es as [|e es IH]; intros b HS T; [exact T|].
  apply IH; [apply Sound_fire; exact HS | apply Tidy_fire; assumption].
Qed.

End TidyPage.

Lemma Tidy_boot (p : Page) :
  indicators (chatMessages p) = 0 -> Tidy (boot p).
Proof.
  intros H. unfold boot.
  destruct (initializeChat_shape (mkWorld initialChatState p [])) as [k [E _]].
  rewrite E. unfold Tidy. cbn. rewrite H. lia.
Qed.

(** ** What holds of the page at all times *)

(** Single flight.  At any moment at most one handler is suspended;
    [isTyping] is set exactly when that handler is a submission under
    way, and the send button is disabled then. *)
Theorem single_flight
    (toLowerCase : jsstring -> jsstring) (markup : Page) (history : list Event) :
  let b := fireAll toLowerCase history (boot markup) in
  List.length (jobs b) <= 1 /\
  (isTyping (chatState (world b)) = true <->
   exists X (p : Pending X) k, jobs b = [Park Listener p k]) /\
  (isTyping (chatState (world b)) = true ->
   sendBtn_disabled (page (world b)) = true).
Proof.
  intros b.
  destruct (Sound_reachable toLowerCase markup history) as [P _ _ _ _ _ B].
  fold b in P, B.
  split; [|split; [split|exact B]].
  - destruct P as [X p k _ J _ _ | _ J _ | X p k _ J _ _]; rewrite J; simpl; lia.
  - intros Ty. destruct P as [X p k _ _ _ [Pc _] | _ _ Ty' | X p k _ J _ _].
    + rewrite Pc in Ty. discriminate.
    + congruence.
    + exists X, p, k. exact J.
  - intros [X [p [k J]]].
    destruct P as [X' p' k' _ J' _ _ | _ J' _ | X' p' k' _ _ _ Ty];
      [rewrite J in J'; discriminate | rewrite J in J'; discriminate | exact Ty].
Qed.

(** No handler of the chat ends in an exception that nothing catches,
    whatever the visitor does and whatever the network answers. *)
Theorem no_uncaught_exception
    (toLowerCase : jsstring -> jsstring) (markup : Page) (history : list Event) :
  unhandled (fireAll toLowerCase history (boot markup)) = [].
Proof. apply (Sound_reachable toLowerCase markup history). Qed.

(** The health probe is the first request and is sent once; every
    other request is a chat request whose [messages] end with an entry
    of the user. *)
Theorem probe_once_then_chat_requests
    (toLowerCase : jsstring -> jsstring) (markup : Page) (history : list Event) :
  exists chats,
    sent (world (fireAll toLowerCase history (boot markup))) = GetHealth :: chats /\
    Forall ChatPost chats.
Proof. apply (Sound_reachable toLowerCase markup history). Qed.

(** A session that is not connected has sent nothing but the probe. *)
Theorem offline_session_sends_nothing
    (toLowerCase : jsstring -> jsstring) (markup : Page) (history : list Event) :
  isConnected (chatState (world (fireAll toLowerCase history (boot markup)))) = false ->
  sent (world (fireAll toLowerCase history (boot markup))) = [GetHealth].
Proof. apply (Sound_reachable toLowerCase markup history). Qed.

Lemma offline_session_sends_nothing_witness :
  sent (world (fireAll asciiLower offlineHistory (boot (freshPage "hi")))) = [GetHealth].
Proof.
  apply (offline_session_sends_nothing asciiLower (freshPage "hi") offlineHistory).
  reflexivity.
Defined.

(** Once the listeners are attached the mode is fixed: no event
    changes [isConnected] any more, and the listeners stay. *)
Theorem mode_fixed_after_startup
    (toLowerCase : jsstring -> jsstring) (markup : Page) (history more : list Event) :
  listening (fireAll toLowerCase history (boot markup)) = true ->
  isConnected (chatState (world (fireAll toLowerCase (history ++ more) (boot markup))))
  = isConnected (chatState (world (fireAll toLowerCase history (boot markup)))) /\
  listening (fireAll toLowerCase (history ++ more) (boot markup)) = true.
Proof.
  intros L. unfold fireAll. rewrite fold_left_app.
  apply (fireAll_keeps_mode toLowerCase more (Sound_reachable toLowerCase markup history) L).
Qed.

Lemma mode_fixed_after_startup_witness :
  isConnected (chatState (world
     (fireAll asciiLower (offlineHistory ++ [Settle 0 TimerFired; ClickClear true])
        (boot (freshPage "hi")))))
  = isConnected (chatState (world (fireAll asciiLower offlineHistory (boot (freshPage "hi"))))) /\
  listening (fireAll asciiLower (offlineHistory ++ [Settle 0 TimerFired; ClickClear true])
               (boot (freshPage "hi"))) = true.
Proof.
  apply (mode_fixed_after_startup asciiLower (freshPage "hi") offlineHistory
           [Settle 0 TimerFired; ClickClear true]).
  reflexivity.
Defined.

(** The transcript never holds two assistant entries in a row. *)
Theorem never_two_assistant_entries_in_a_row
    (toLowerCase : jsstring -> jsstring) (markup : Page) (history : list Event)
    (pre : list Message) (a b : Message) (post : list Message) :
  messages (chatState (world (fireAll toLowerCase history (boot markup))))
  = pre ++ a :: b :: post ->
  ~ (role a = assistant /\ role b = assistant).
Proof.
  apply noAssistantTwice_spec.
  apply (Sound_reachable toLowerCase markup history).
Qed.

(** The pending state always ends.  From any state of the page, once
    the network has answered, the body has been read and the timer has
    fired, nothing is suspended, the listeners are attached and
    [isTyping] is off. *)
Theorem pending_state_always_ends
    (toLowerCase : jsstring -> jsstring) (markup : Page) (history : list Event)
    (o : FetchOutcome) :
  let b := fireAll toLowerCase (history ++ drain o) (boot markup) in
  jobs b = [] /\ listening b = true /\ isTyping (chatState (world b)) = false.
Proof.
  intros b. unfold b, fireAll. rewrite fold_left_app.
  fold (fireAll toLowerCase history (boot markup)).
  fold (fireAll toLowerCase (drain o) (fireAll toLowerCase history (boot markup))).
  destruct (Sound_reachable toLowerCase markup history) as [P _ _ _ _ _ _].
  set (b0 := fireAll toLowerCase history (boot markup)) in *.
  destruct P as [X p k L J W [Pc _] | L J Ty | X p k L J W Ty].
  - destruct (@settle_drain toLowerCase _ b0 _ _ _ _ o J W) as [w' [E D]].
    rewrite E. cbn. destruct D as [_ [Dt _]].
    rewrite Dt, Pc. repeat split. apply orb_true_r.
  - destruct b0 as [w l js u]. cbn in *. subst js. cbn. repeat split; assumption.
  - destruct (@settle_drain toLowerCase _ b0 _ _ _ _ o J W) as [w' [E D]].
    rewrite E. cbn. destruct D as [Dt _].
    rewrite L. repeat split. exact Dt.
Qed.

Lemma never_two_assistant_entries_in_a_row_witness :
  ~ (role (mkMessage user (Val (JStr (JsString.lit "hi")))) = assistant /\
     role (mkMessage assistant (Val (JStr (demoReply asciiLower (JsString.lit "hi")))))
     = assistant).
Proof.
  apply (@never_two_assistant_entries_in_a_row asciiLower (freshPage "hi")
           (offlineHistory ++ [Settle 0 TimerFired]) [] _ _ []).
  reflexivity.
Defined.

Lemma fireAll_unanswered (toLowerCase : jsstring -> jsstring) (es : list Event) :
  forall b,
    listening b = false ->
    forallb (fun e => negb (isSettle e)) es = true ->
    listening (fireAll toLowerCase es b) = false.
Proof.
  induction es as [|e es IH]; intros b L H; [exact L|].
  cbn in H. apply andb_prop in H. destruct H as [He Hes].
  apply negb_true_iff in He.
  change (fireAll toLowerCase (e :: es) b)
    with (fireAll toLowerCase es (fire toLowerCase e b)).
  apply IH; [|exact Hes].
  apply (fire_unanswered toLowerCase e b L He).
Qed.

(** As long as the health probe is unanswered the chat is inert:
    whatever the visitor does, the listeners are not attached, the chat
    state is the initial one, the probe is all that was sent, and every
    click and key press leaves the page as it is. *)
Theorem unanswered_probe_keeps_chat_inert
    (toLowerCase : jsstring -> jsstring) (markup : Page) (history : list Event) :
  forallb (fun e => negb (isSettle e)) history = true ->
  let b := fireAll toLowerCase history (boot markup) in
  listening b = false /\
  chatState (world b) = initialChatState /\
  sent (world b) = [GetHealth] /\
  (forall e, isSettle e = false -> isInput e = false -> fire toLowerCase e b = b).
Proof.
  intros H b.
  assert (L : listening b = false).
  { apply fireAll_unanswered; [|exact H].
    unfold boot.
    destruct (initializeChat_shape (mkWorld initialChatState markup [])) as [k [E _]].
    rewrite E. reflexivity. }
  destruct (Sound_reachable toLowerCase markup history) as [P _ _ _ _ _ _].
  fold b in P.
  destruct P as [X p k _ _ _ [Pc Ps] | L' _ _ | X p k L' _ _ _]; try congruence.
  repeat split; try assumption.
  intros e S I. apply (proj2 (fire_unanswered toLowerCase e b L S) I).
Qed.

Lemma unanswered_probe_keeps_chat_inert_witness :
  let b := fireAll asciiLower unansweredHistory (boot (freshPage "")) in
  listening b = false /\
  chatState (world b) = initialChatState /\
  sent (world b) = [GetHealth] /\
  (forall e, isSettle e = false -> isInput e = false -> fire asciiLower e b = b).
Proof.
  apply (unanswered_probe_keeps_chat_inert asciiLower (freshPage "") unansweredHistory).
  reflexivity.
Defined.

(** The page never shows more than one typing indicator, and none
    when no submission is under way, provided the markup has none. *)
Theorem typing_indicator_shown_only_in_flight
    (toLowerCase : jsstring -> jsstring) (markup : Page) (history : list Event) :
  indicators (chatMessages markup) = 0 ->
  let b := fireAll toLowerCase history (boot markup) in
  indicators (chatMessages (page (world b)))
  <= (if isTyping (chatState (world b)) then 1 else 0).
Proof.
  intros H b.
  apply (Tidy_fireAll toLowerCase history (Sound_boot markup) (Tidy_boot markup H)).
Qed.

Lemma typing_indicator_shown_only_in_flight_witness :
  let b := fireAll asciiLower (offlineHistory ++ [ClickClear true; Settle 0 TimerFired])
             (boot (freshPage "hi")) in
  indicators (chatMessages (page (world b)))
  <= (if isTyping (chatState (world b)) then 1 else 0).
Proof.
  apply (typing_indicator_shown_only_in_flight asciiLower (freshPage "hi")
           (offlineHistory ++ [ClickClear true; Settle 0 TimerFired])).
  reflexivity.
Defined.

(** ** Whole turns *)

Lemma fireAll_app (toLowerCase : jsstring -> jsstring) (es es' : list Event) (b : Browser) :
  fireAll toLowerCase (es ++ es') b
  = fireAll toLowerCase es' (fireAll toLowerCase es b).
Proof. apply fold_left_app. Qed.

Lemma enter_is_enter : JsString.eqb (JsString.lit "Enter") (JsString.lit "Enter") = true.
Proof. reflexivity. Qed.

Section Turns.

Variable toLowerCase : jsstring -> jsstring.

Lemma demo_turn (w : World) (text : jsstring) :
  isTyping (chatState w) = false ->
  isConnected (chatState w) = false ->
  exists w',
    fireAll toLowerCase (demoTurn text) (idle w) = idle w' /\
    messages (chatState w')
    = messages (chatState w)
      ++ exchange text (Val (JStr (demoReply toLowerCase (JsString.trim text)))) /\
    isTyping (chatState w') = false /\
    isConnected (chatState w') = false /\
    sent w' = sent w.
Proof.
  intros Ty Co. unfold demoTurn, fireAll, exchange. cbn.
  rewrite enter_is_enter. cbn.
  unfold sendMessage, bind, gets. cbn. rewrite Ty.
  destruct (JsString.trim text) as [|c m] eqn:Tr; cbn.
  - eexists. split; [reflexivity|]. cbn. rewrite app_nil_r. repeat split; assumption.
  - rewrite Co. cbn. eexists. split; [reflexivity|]. cbn.
    rewrite <- app_assoc. repeat split. exact Co.
Qed.

(** A DEMO conversation.  Turns typed and sent one after the other
    leave in the transcript, for each text that is not blank, the
    trimmed text and then its canned reply, in order; blank texts leave
    nothing. *)
Theorem demo_conversation (texts : list jsstring) (w : World) :
  isTyping (chatState w) = false ->
  isConnected (chatState w) = false ->
  exists w',
    fireAll toLowerCase (flat_map demoTurn texts) (idle w) = idle w' /\
    messages (chatState w')
    = messages (chatState w)
      ++ flat_map
           (fun text =>
              exchange text (Val (JStr (demoReply toLowerCase (JsString.trim text)))))
           texts /\
    sent w' = sent w.
Proof.
  revert w. induction texts as [|text texts IH]; intros w Ty Co.
  - exists w. cbn. rewrite app_nil_r. repeat split.
  - destruct (demo_turn w text Ty Co) as [w1 [E1 [M1 [Ty1 [Co1 S1]]]]].
    destruct (IH w1 Ty1 Co1) as [w' [E [M S]]].
    exists w'. split; [|split].
    + change (flat_map demoTurn (text :: texts))
        with (demoTurn text ++ flat_map demoTurn texts).
      rewrite fireAll_app, E1. exact E.
    + rewrite M, M1. cbn [flat_map]. rewrite app_assoc. reflexivity.
    + congruence.
Qed.

End Turns.

Lemma demo_conversation_witness :
  exists w',
    fireAll asciiLower
      (flat_map demoTurn [JsString.lit "my skills?"; JsString.lit "  "; JsString.lit "zzz"])
      (idle (demoWorld ""))
    = idle w' /\
    messages (chatState w')
    = messages (chatState (demoWorld ""))
      ++ flat_map
           (fun text =>
              exchange text (Val (JStr (demoReply asciiLower (JsString.trim text)))))
           [JsString.lit "my skills?"; JsString.lit "  "; JsString.lit "zzz"] /\
    sent w' = sent (demoWorld "").
Proof.
  apply (demo_conversation asciiLower
           [JsString.lit "my skills?"; JsString.lit "  "; JsString.lit "zzz"]
           (demoWorld "")); reflexivity.
Defined.

Lemma liveRequests_wire (turns : list (jsstring * FetchOutcome)) :
  forall ms,
    Forall
      (fun request =>
         exists transcript items,
           request = PostChat (chatBody transcript) /\
           requestMessages request = Some items /\
           Forall2 WireEntry transcript items)
      (liveRequests ms turns).
Proof.
  induction turns as [|turn turns IH]; intros ms; simpl; [constructor|].
  destruct (JsString.trim (fst turn)) as [|c m]; [apply IH|].
  constructor; [|apply IH].
  eexists. eexists. split; [reflexivity|].
  split; [apply requestMessages_chatBody | apply transcript_WireEntry].
Qed.

Section LiveTurns.

Variable toLowerCase : jsstring -> jsstring.

Lemma live_turn (w : World) (turn : jsstring * FetchOutcome) :
  isTyping (chatState w) = false ->
  isConnected (chatState w) = true ->
  (exists v, replyContent (snd turn) = inr v /\ templateOk v = true) ->
  exists w',
    fireAll toLowerCase (liveTurn turn) (idle w) = idle w' /\
    messages (chatState w')
    = messages (chatState w) ++ exchange (fst turn) (replyValue (snd turn)) /\
    sent w' = sent w ++ liveRequests (messages (chatState w)) [turn] /\
    isTyping (chatState w') = false /\
    isConnected (chatState w') = true.
Proof.
  intros Ty Co [v [Hv Pv]]. destruct turn as [text o]. cbn [fst snd] in *.
  unfold replyValue, exchange, liveRequests. cbn [fst snd]. rewrite Hv.
  destruct o as [|r]; [discriminate|]. simpl in Hv.
  destruct (ok r) eqn:K; [|discriminate].
  destruct (resp_json r) as [data|] eqn:J; [|discriminate].
  destruct (getProperty (Val data) (JsString.lit "message")) as [e|msg] eqn:G;
    [discriminate|].
  unfold liveTurn, fireAll. cbn.
  rewrite enter_is_enter. cbn.
  unfold sendMessage, bind, gets. cbn. rewrite Ty.
  destruct (JsString.trim text) as [|c m] eqn:Tr; cbn.
  - eexists. split; [reflexivity|]. cbn. rewrite !app_nil_r. repeat split; assumption.
  - rewrite Co. cbn. rewrite K. cbn. rewrite J. cbn. rewrite G. cbn. rewrite Hv. cbn.
    unfold addMessage. rewrite Pv. cbn.
    eexists. split; [reflexivity|]. cbn.
    rewrite <- app_assoc. repeat split. exact Co.
Qed.

(** A LIVE conversation in which every call is answered with a reply
    whose [message.content] can be read and shown (its conversion to a
    string does not throw).  The transcript gains, for each text that is
    not blank, the trimmed text and then the reply, in order; and each
    request that leaves carries the whole transcript so far, as
    [JSON.stringify] writes it, with the new entry of the user at its
    end. *)
Theorem live_conversation (turns : list (jsstring * FetchOutcome)) (w : World) :
  isTyping (chatState w) = false ->
  isConnected (chatState w) = true ->
  Forall (fun turn => exists v, replyContent (snd turn) = inr v /\ templateOk v = true)
    turns ->
  exists w',
    fireAll toLowerCase (flat_map liveTurn turns) (idle w) = idle w' /\
    messages (chatState w')
    = messages (chatState w)
      ++ flat_map (fun turn => exchange (fst turn) (replyValue (snd turn))) turns /\
    sent w' = sent w ++ liveRequests (messages (chatState w)) turns /\
    Forall
      (fun request =>
         exists transcript items,
           request = PostChat (chatBody transcript) /\
           requestMessages request = Some items /\
           Forall2 WireEntry transcript items)
      (liveRequests (messages (chatState w)) turns).
Proof.
  revert w. induction turns as [|turn turns IH]; intros w Ty Co Ok.
  - exists w. cbn. rewrite !app_nil_r. repeat split. constructor.
  - inversion Ok as [|? ? Ok1 Oks]; subst.
    destruct (live_turn w turn Ty Co Ok1) as [w1 [E1 [M1 [S1 [Ty1 Co1]]]]].
    destruct (IH w1 Ty1 Co1 Oks) as [w' [E [M [S W]]]].
    exists w'. split; [|split; [|split]].
    + change (flat_map liveTurn (turn :: turns))
        with (liveTurn turn ++ flat_map liveTurn turns).
      rewrite fireAll_app, E1. exact E.
    + rewrite M, M1. cbn [flat_map]. rewrite app_assoc. reflexivity.
    + rewrite S, S1, M1. cbn [liveRequests].
      unfold exchange.
      destruct (JsString.trim (fst turn)) as [|c m]; cbn.
      * rewrite !app_nil_r. reflexivity.
      * rewrite <- app_assoc. reflexivity.
    + apply liveRequests_wire.
Qed.

(** Clearing while a reply is awaited does not cancel the reply.  When
    the visitor confirms the clearing during a LIVE call, the reply
    that arrives afterwards, if its content can be read and shown, is
    shown under the new welcome message and becomes the only entry of
    the transcript, with no entry of the user before it. *)
Theorem clear_in_flight_keeps_late_reply
    (w : World) (c : N) (m : jsstring) (o : FetchOutcome) (v : jsval) :
  JsString.trim (chatInput_value (page w)) = c :: m ->
  isTyping (chatState w) = false ->
  isConnected (chatState w) = true ->
  replyContent o = inr v ->
  templateOk v = true ->
  exists w',
    fireAll toLowerCase
      [KeyDown (JsString.lit "Enter") false; ClickClear true;
       Settle 0 (Fetched o); Settle 0 BodyRead]
      (idle w)
    = idle w' /\
    messages (chatState w') = [mkMessage assistant v] /\
    chatMessages (page w') = [WelcomeMessage; Bubble assistant v] /\
    isTyping (chatState w') = false /\
    sent w'
    = sent w ++ [PostChat (chatBody (messages (chatState w)
                                     ++ [mkMessage user (Val (JStr (c :: m)))]))].
Proof.
  intros Tr Ty Co Hv Pv.
  destruct o as [|r]; [discriminate|]. simpl in Hv.
  destruct (ok r) eqn:K; [|discriminate].
  destruct (resp_json r) as [data|] eqn:J; [|discriminate].
  destruct (getProperty (Val data) (JsString.lit "message")) as [e|msg] eqn:G;
    [discriminate|].
  unfold fireAll. cbn.
  rewrite enter_is_enter. cbn.
  unfold sendMessage, bind, gets. cbn. rewrite Ty, Tr. cbn.
  rewrite Co. cbn. rewrite K. cbn. rewrite J. cbn. rewrite G. cbn. rewrite Hv. cbn.
  unfold addMessage. rewrite Pv. cbn.
  eexists. split; [reflexivity|]. cbn. repeat split.
Qed.

End LiveTurns.


Lemma live_conversation_witness :
  (exists w',
     fireAll asciiLower (flat_map liveTurn sampleTurns) (idle (liveWorld "")) = idle w' /\
     messages (chatState w')
     = messages (chatState (liveWorld ""))
       ++ flat_map (fun turn => exchange (fst turn) (replyValue (snd turn))) sampleTurns /\
     sent w'
     = sent (liveWorld "") ++ liveRequests (messages (chatState (liveWorld ""))) sampleTurns /\
     Forall
       (fun request =>
          exists transcript items,
            request = PostChat (chatBody transcript) /\
            requestMessages request = Some items /\
            Forall2 WireEntry transcript items)
       (liveRequests (messages (chatState (liveWorld ""))) sampleTurns)) /\
  map requestMessages (liveRequests [] sampleTurns)
  = [ Some [ JObj [ (JsString.lit "role", JStr (JsString.lit "user"));
                    (JsString.lit "content", JStr (JsString.lit "hi")) ] ];
      Some [ JObj [ (JsString.lit "role", JStr (JsString.lit "user"));
                    (JsString.lit "content", JStr (JsString.lit "hi")) ];
             JObj [ (JsString.lit "role", JStr (JsString.lit "assistant"));
                    (JsString.lit "content", JNull) ];
             JObj [ (JsString.lit "role", JStr (JsString.lit "user"));
                    (JsString.lit "content", JStr (JsString.lit "and you?")) ] ] ].
Proof.
  split.
  - apply (@live_conversation asciiLower sampleTurns (liveWorld "")); try reflexivity.
    repeat constructor; eexists; split; reflexivity.
  - reflexivity.
Defined.

Lemma clear_in_flight_keeps_late_reply_witness :
  exists w',
    fireAll asciiLower
      [KeyDown (JsString.lit "Enter") false; ClickClear true;
       Settle 0 (Fetched (okReply "hello")); Settle 0 BodyRead]
      (idle (liveWorld "hi"))
    = idle w' /\
    messages (chatState w')
    = [mkMessage assistant (Val (JStr (JsString.lit "hello")))] /\
    chatMessages (page w')
    = [WelcomeMessage; Bubble assistant (Val (JStr (JsString.lit "hello")))] /\
    isTyping (chatState w') = false /\
    sent w'
    = sent (liveWorld "hi")
      ++ [PostChat (chatBody (messages (chatState (liveWorld "hi"))
                              ++ [mkMessage user (Val (JStr (JsString.lit "hi")))]))].
Proof.
  apply (@clear_in_flight_keeps_late_reply asciiLower (liveWorld "hi") 104%N [105%N]
           (okReply "hello") (Val (JStr (JsString.lit "hello")))); reflexivity.
Defined.

(** ** What is stored of the text typed *)

Lemma trimStart_first (s : jsstring) (c : N) (r : jsstring) :
  JsString.trimStart s = c :: r -> JsString.isWhite c = false.
Proof.
  induction s as [|d s IH]; simpl; [discriminate|].
  destruct (JsString.isWhite d) eqn:E; [exact IH|].
  intros H. injection H as -> _. exact E.
Qed.

Lemma trimEnd_split (t : jsstring) :
  exists post,
    t = JsString.trimEnd t ++ post /\ forallb JsString.isWhite post = true.
Proof.
  unfold JsString.trimEnd.
  destruct (trimStart_suffix (rev t)) as [pre [E B]].
  exists (rev pre). split.
  - rewrite <- rev_app_distr, <- E, rev_involutive. reflexivity.
  - rewrite forallb_forall in *. intros x Hx. apply B. apply in_rev. exact Hx.
Qed.

(** [trim] cuts white space off both ends and nothing else. *)
Lemma trim_split (s : jsstring) :
  exists pre post,
    s = pre ++ JsString.trim s ++ post /\
    forallb JsString.isWhite pre = true /\
    forallb JsString.isWhite post = true.
Proof.
  destruct (trimStart_suffix s) as [pre [E B]].
  destruct (trimEnd_split (JsString.trimStart s)) as [post [E' B']].
  exists pre, post. unfold JsString.trim. split; [|split; assumption].
  rewrite <- E'. exact E.
Qed.

Lemma trim_ends (s : jsstring) (c : N) (m : jsstring) :
  JsString.trim s = c :: m ->
  JsString.isWhite c = false /\ JsString.isWhite (last (c :: m) c) = false.
Proof.
  intros H. split.
  - destruct (trimEnd_split (JsString.trimStart s)) as [post [E _]].
    fold (JsString.trim s) in E. rewrite H in E.
    apply (trimStart_first s (r := m ++ post)). exact E.
  - unfold JsString.trim, JsString.trimEnd in H.
    destruct (JsString.trimStart (rev (JsString.trimStart s))) as [|d u] eqn:U;
      [discriminate|].
    apply trimStart_first in U.
    rewrite <- H. simpl rev. rewrite last_last. exact U.
Qed.

(** What [sendMessage] keeps of the input.  An accepted submission
    empties the input box and stores, as the entry of the user, the text
    typed without the white space at its two ends: the stored text
    neither starts nor ends with white space, and the input is that text
    between two runs of white space. *)
Theorem sendMessage_stores_trimmed_text
    (toLowerCase : jsstring -> jsstring) (w : World) (c : N) (m : jsstring) :
  JsString.trim (chatInput_value (page w)) = c :: m ->
  isTyping (chatState w) = false ->
  exists wait w1 pre post,
    parked (sendMessage toLowerCase w) = Some (wait, w1) /\
    messages (chatState w1)
    = messages (chatState w) ++ [mkMessage user (Val (JStr (c :: m)))] /\
    chatInput_value (page w1) = [] /\
    chatInput_value (page w) = pre ++ (c :: m) ++ post /\
    forallb JsString.isWhite pre = true /\
    forallb JsString.isWhite post = true /\
    JsString.isWhite c = false /\
    JsString.isWhite (last (c :: m) c) = false.
Proof.
  intros Tr Ty.
  destruct (trim_split (chatInput_value (page w))) as [pre [post [E [Bp Bq]]]].
  rewrite Tr in E. destruct (trim_ends _ Tr) as [Hc Hl].
  destruct (isConnected (chatState w)) eqn:Co.
  - destruct (sendMessage_live_shape toLowerCase w Tr Ty Co) as [k [Es _]].
    rewrite Es. eexists. eexists. exists pre, post. split; [reflexivity|].
    cbn. repeat split; assumption.
  - destruct (sendMessage_demo_shape toLowerCase w Tr Ty Co) as [k [Es _]].
    rewrite Es. eexists. eexists. exists pre, post. split; [reflexivity|].
    cbn. repeat split; assumption.
Qed.

Lemma sendMessage_stores_trimmed_text_witness :
  exists wait w1 pre post,
    parked (sendMessage asciiLower (demoWorld "  two words ")) = Some (wait, w1) /\
    messages (chatState w1)
    = messages (chatState (demoWorld "  two words "))
      ++ [mkMessage user (Val (JStr (JsString.lit "two words")))] /\
    chatInput_value (page w1) = [] /\
    chatInput_value (page (demoWorld "  two words "))
    = pre ++ JsString.lit "two words" ++ post /\
    forallb JsString.isWhite pre = true /\
    forallb JsString.isWhite post = true /\
    JsString.isWhite 116 = false /\
    JsString.isWhite (last (JsString.lit "two words") 116%N) = false.
Proof.
  apply (@sendMessage_stores_trimmed_text asciiLower (demoWorld "  two words ")
           116%N (JsString.lit "wo words")); reflexivity.
Defined.

(** ** The page after the health probe *)

Lemma insertAfterWelcome_first (n : Node) (pre post : list Node) :
  ~ In WelcomeMessage pre ->
  insertAfterWelcome n (pre ++ WelcomeMessage :: post)
  = pre ++ WelcomeMessage :: n :: post.
Proof.
  induction pre as [|x pre IH]; intros H; [reflexivity|].
  simpl. destruct x; simpl.
  - exfalso. apply H. left. reflexivity.
  - rewrite IH; [reflexivity | intros I; apply H; right; exact I].
  - rewrite IH; [reflexivity | intros I; apply H; right; exact I].
  - rewrite IH; [reflexivity | intros I; apply H; right; exact I].
Qed.

Lemma insertAfterWelcome_absent (n : Node) (l : list Node) :
  ~ In WelcomeMessage l -> insertAfterWelcome n l = l.
Proof.
  induction l as [|x l IH]; intros H; [reflexivity|].
  simpl. destruct x; simpl.
  - exfalso. apply H. left. reflexivity.
  - rewrite IH; [reflexivity | intros I; apply H; right; exact I].
  - rewrite IH; [reflexivity | intros I; apply H; right; exact I].
  - rewrite IH; [reflexivity | intros I; apply H; right; exact I].
Qed.

Lemma checkAPIHealth_offline_run (w : World) (o : FetchOutcome) :
  healthy o = false ->
  exists w',
    run (checkAPIHealth w) [o] = Some (Returned tt, w') /\
    status (page w') = Some (offline, ApiOffline) /\
    chatMessages (page w') = insertAfterWelcome DemoModeMessage (chatMessages (page w)).
Proof.
  unfold checkAPIHealth, tryCatch, fetch, bind. cbn.
  destruct o as [|r]; cbn; [intros _; eexists; repeat split|].
  destruct (ok r); cbn; [|intros _; eexists; repeat split].
  destruct (resp_json r) as [data|]; cbn; [|intros _; eexists; repeat split].
  destruct data; cbn;
    try (intros _; eexists; split; [reflexivity|]; repeat split; fail).
  all: destruct (getProperty _ (JsString.lit "model")) as [e|model]; cbn;
    [intros _; eexists; repeat split|].
  all: destruct (templateOk model); cbn; [discriminate|].
  all: intros _; eexists; repeat split.
Qed.

(** The page after a failed probe.  The status line reads offline, and
    the notice of the demo mode is put right after the welcome message;
    on a page without a welcome message no notice appears at all. *)
Theorem checkAPIHealth_offline_notice (w : World) (o : FetchOutcome) :
  healthy o = false ->
  exists w',
    run (checkAPIHealth w) [o] = Some (Returned tt, w') /\
    status (page w') = Some (offline, ApiOffline) /\
    (forall pre post,
       chatMessages (page w) = pre ++ WelcomeMessage :: post ->
       ~ In WelcomeMessage pre ->
       chatMessages (page w') = pre ++ WelcomeMessage :: DemoModeMessage :: post) /\
    (~ In WelcomeMessage (chatMessages (page w)) ->
     chatMessages (page w') = chatMessages (page w)).
Proof.
  intros H. destruct (checkAPIHealth_offline_run w o H) as [w' [R [S N]]].
  exists w'. split; [exact R|]. split; [exact S|]. split.
  - intros pre post E F. rewrite N, E. apply insertAfterWelcome_first. exact F.
  - intros F. rewrite N. apply insertAfterWelcome_absent. exact F.
Qed.

Lemma checkAPIHealth_offline_notice_witness :
  exists w',
    run (checkAPIHealth (chattedWorld)) [Responded (mkResponse 500 None)]
    = Some (Returned tt, w') /\
    status (page w') = Some (offline, ApiOffline) /\
    (forall pre post,
       chatMessages (page chattedWorld) = pre ++ WelcomeMessage :: post ->
       ~ In WelcomeMessage pre ->
       chatMessages (page w') = pre ++ WelcomeMessage :: DemoModeMessage :: post) /\
    (~ In WelcomeMessage (chatMessages (page chattedWorld)) ->
     chatMessages (page w') = chatMessages (page chattedWorld)).
Proof.
  apply (checkAPIHealth_offline_notice chattedWorld (Responded (mkResponse 500 None))).
  reflexivity.
Defined.

(** ** The navigation bar *)

Lemma currentSection_last (sections : list PageSection) (scrollY : Q) :
  forall start,
    (Forall (fun s => reached scrollY s = false) sections ->
     fold_left (fun current s => if reached scrollY s then section_id s else current)
       sections start = start) /\
    (forall pre s post,
       sections = pre ++ s :: post ->
       reached scrollY s = true ->
       Forall (fun s' => reached scrollY s' = false) post ->
       fold_left (fun current s => if reached scrollY s then section_id s else current)
         sections start = section_id s).
Proof.
  induction sections as [|x sections IH]; intros start.
  - split; [reflexivity | intros pre s post E; destruct pre; discriminate].
  - split.
    + intros F. inversion F as [|? ? Hx Hr]; subst. simpl. rewrite Hx.
      apply (proj1 (IH start) Hr).
    + intros pre s post E R F. simpl. destruct pre as [|y pre].
      * injection E as -> ->. rewrite R. apply (proj1 (IH (section_id s)) F).
      * injection E as -> E.
        apply (proj2 (IH (if reached scrollY y then section_id y else start))
                 pre s post E R F).
Qed.

Lemma pointsAt_spec (current : jsstring) (l : NavLink) :
  pointsAt current l = true <-> href l = Some (35%N :: current).
Proof.
  unfold pointsAt. destruct (href l) as [h|].
  - rewrite eqb_N_list. split; [intros ->; reflexivity | intros [= ->]; reflexivity].
  - split; discriminate.
Qed.

Lemma onScroll_links (sections : list PageSection) (scrollY : Q) (nav : NavBar)
    (l : NavLink) :
  In l (navLinks (onScroll sections scrollY nav)) ->
  (active l = true <-> href l = Some (35%N :: currentSection sections scrollY)) /\
  exists l0, In l0 (navLinks nav) /\ href l0 = href l.
Proof.
  unfold onScroll. cbn. intros H. apply in_map_iff in H.
  destruct H as [l0 [<- I]]. cbn. split.
  - apply pointsAt_spec.
  - exists l0. split; [exact I | reflexivity].
Qed.

(** The scroll listener highlights the last section reached.  When
    [s] is the last section, in document order, whose top is at most 100
    pixels below the scroll position, the links highlighted afterwards
    are exactly those whose [href] is [#] followed by the id of [s],
    whatever was highlighted before; the menu keeps its links, and the
    bar has the class [scrolled] exactly when the page is scrolled by
    more than 50 pixels. *)
Theorem scroll_highlights_last_reached_section
    (sections : list PageSection) (scrollY : Q) (nav : NavBar)
    (pre : list PageSection) (s : PageSection) (post : list PageSection) :
  sections = pre ++ s :: post ->
  reached scrollY s = true ->
  Forall (fun s' => reached scrollY s' = false) post ->
  (forall l, In l (navLinks (onScroll sections scrollY nav)) ->
     (active l = true <-> href l = Some (35%N :: section_id s))) /\
  map href (navLinks (onScroll sections scrollY nav)) = map href (navLinks nav) /\
  (scrolled (onScroll sections scrollY nav) = true <-> (inject_Z 50 < scrollY)%Q).
Proof.
  intros E R F.
  assert (C : currentSection sections scrollY = section_id s).
  { unfold currentSection. apply (proj2 (currentSection_last sections scrollY []) pre s post E R F). }
  split; [|split].
  - intros l I. rewrite <- C. apply (onScroll_links _ _ _ _ I).
  - unfold onScroll. cbn. rewrite map_map. reflexivity.
  - unfold onScroll. cbn. rewrite negb_true_iff. split.
    + intros H. apply Qnot_le_lt. intros Le. apply Qle_bool_iff in Le. congruence.
    + intros H. destruct (Qle_bool scrollY (inject_Z 50)) eqn:Le; [|reflexivity].
      apply Qle_bool_iff in Le. exfalso. exact (Qlt_not_le _ _ H Le).
Qed.

Lemma scroll_highlights_last_reached_section_witness :
  (forall l, In l (navLinks (onScroll sampleSections (1350 # 1)%Q sampleNav)) ->
     (active l = true <-> href l = Some (35%N :: JsString.lit "contact"))) /\
  map href (navLinks (onScroll sampleSections (1350 # 1)%Q sampleNav))
  = map href (navLinks sampleNav) /\
  (scrolled (onScroll sampleSections (1350 # 1)%Q sampleNav) = true
   <-> (inject_Z 50 < (1350 # 1))%Q).
Proof.
  apply (@scroll_highlights_last_reached_section sampleSections (1350 # 1)%Q sampleNav
           [mkPageSection (JsString.lit "home") 0; mkPageSection (JsString.lit "about") 600]
           (mkPageSection (JsString.lit "contact") 1400) []).
  - reflexivity.
  - reflexivity.
  - constructor.
Defined.

(** Above every section.  When no section is reached, [current] stays
    empty and the links highlighted are exactly those whose [href] is
    the bare [#]. *)
Theorem scroll_above_every_section
    (sections : list PageSection) (scrollY : Q) (nav : NavBar) :
  Forall (fun s => reached scrollY s = false) sections ->
  currentSection sections scrollY = [] /\
  (forall l, In l (navLinks (onScroll sections scrollY nav)) ->
     (active l = true <-> href l = Some [35%N])).
Proof.
  intros F.
  assert (C : currentSection sections scrollY = []).
  { unfold currentSection. apply (proj1 (currentSection_last sections scrollY []) F). }
  split; [exact C|].
  intros l I. rewrite <- C. apply (onScroll_links _ _ _ _ I).
Qed.

Lemma scroll_above_every_section_witness :
  currentSection [mkPageSection (JsString.lit "about") 600] (0 # 1)%Q = [] /\
  (forall l,
     In l (navLinks (onScroll [mkPageSection (JsString.lit "about") 600] (0 # 1)%Q sampleNav)) ->
     (active l = true <-> href l = Some [35%N])).
Proof.
  apply (@scroll_above_every_section [mkPageSection (JsString.lit "about") 600]
           (0 # 1)%Q sampleNav).
  repeat constructor.
Defined.
